(** * The control plane of the transparent proxy: a shallow embedding

    Source: [component/control/control_plane.go].

    The file embeds the four operations of [ControlPlane]
    ([NewControlPlane], [BindLink], [ListenAndServe], [Close]) as Rocq
    functions over an explicit [World]: the part of the machine the Go
    code talks to (the eBPF maps, netlink, the pin directory, the
    logger, the listeners and the cancellation context).  Go closures
    stored in [deferFuncs] are Rocq functions on [World]; Go's
    [(T, error)] results are values of [Result]; the two accept loops
    of [ListenAndServe] run as an interleaving step relation. *)

From Stdlib Require Import ZArith String Ascii Lia.
From Stdlib.Strings Require Import Byte.
From stdpp Require Import gmap strings list.

Open Scope string_scope.
Open Scope list_scope.
Open Scope Z_scope.

(* ===================================================================== *)
(** ** Go errors *)
(* ===================================================================== *)

(** Sentinel error values the code compares against by identity. *)
Inductive Sentinel : Type :=
| ErrMapIncompatible   (* github.com/cilium/ebpf *)
| EEXIST.              (* syscall.Errno *)

#[global] Instance Sentinel_eq_dec : EqDecision Sentinel.
Proof. solve_decision. Defined.

(** A Go [error] value: its text, and what [errors.Unwrap] yields. *)
Inductive error : Type :=
| errorString (s : string)                  (* errors.New, fmt.Errorf without %w *)
| sentinelError (id : Sentinel) (s : string)
| wrapError (msg : string) (err : error).   (* fmt.Errorf with one %w *)

(** [err.Error()] *)
Definition Error (e : error) : string :=
  match e with
  | errorString s => s
  | sentinelError _ s => s
  | wrapError msg _ => msg
  end.

(** [errors.Is(err, target)] for a sentinel target: walks the Unwrap chain. *)
Fixpoint errors_Is (e : error) (target : Sentinel) : bool :=
  match e with
  | errorString _ => false
  | sentinelError id _ => bool_decide (id = target)
  | wrapError _ inner => errors_Is inner target
  end.

(** [os.IsExist(err)]: does not look through fmt wrappers. *)
Definition os_IsExist (e : error) : bool :=
  match e with
  | sentinelError EEXIST _ => true
  | _ => false
  end.

(** [fmt.Errorf(pre + "%v", err)] *)
Definition Errorf_v (pre : string) (e : error) : error :=
  errorString (pre +:+ Error e).

(** [fmt.Errorf(pre + "%w", err)] *)
Definition Errorf_w (pre : string) (e : error) : error :=
  wrapError (pre +:+ Error e) e.

(** [fmt.Errorf("%w; %v", err, e)], the combination [Close] builds. *)
Definition Errorf_w_semicolon_v (err e : error) : error :=
  wrapError (Error err +:+ "; " +:+ Error e) err.

(** Go's [(T, error)]. *)
Inductive Result (A : Type) : Type :=
| Ok (a : A)
| Err (e : error).
Arguments Ok {A} a.
Arguments Err {A} e.

(* ===================================================================== *)
(** ** Strings and fixed-width integers *)
(* ===================================================================== *)

(** [strings.Index(s, substr)]; [None] is Go's [-1]. *)
Definition strings_Index (s substr : string) : option nat :=
  String.index 0 substr s.

(** [strings.Contains(s, substr)] *)
Definition strings_Contains (s substr : string) : bool :=
  match strings_Index s substr with
  | Some _ => true
  | None => false
  end.

(** [s[n:]] *)
Fixpoint string_from (n : nat) (s : string) : string :=
  match n, s with
  | O, _ => s
  | S n', String _ rest => string_from n' rest
  | S _, EmptyString => EmptyString
  end.

(** [strings.SplitN(s, ":", 2)[0]]: the text before the first colon,
    all of [s] when it has none. *)
Fixpoint before_colon (s : string) : string :=
  match s with
  | EmptyString => EmptyString
  | String c rest =>
      if Ascii.eqb c ":"%char then EmptyString else String c (before_colon rest)
  end.

(** [strings.Join(elems, sep)] *)
Fixpoint strings_Join (elems : list string) (sep : string) : string :=
  match elems with
  | [] => ""
  | [x] => x
  | x :: rest => x +:+ sep +:+ strings_Join rest sep
  end.

(** [filepath.Join(a, b)] on two plain path elements. *)
Definition filepath_Join (a b : string) : string := a +:+ "/" +:+ b.

Definition uint8 (z : Z) : Z := z mod 2 ^ 8.
Definition uint32 (z : Z) : Z := z mod 2 ^ 32.

(* ===================================================================== *)
(** ** netip.Addr *)
(* ===================================================================== *)

#[global] Instance byte_eq_dec : EqDecision byte := Byte.byte_eq_dec.

(** A valid [netip.Addr]: an IPv4 address (4 bytes) or an IPv6 address
    (16 bytes, IPv4-mapped ones included). *)
Inductive Addr : Type :=
| Addr4 (b : list byte)
| Addr6 (b : list byte).

(** [netip.AddrFromSlice]: only slices of 4 or 16 bytes are addresses. *)
Definition AddrFromSlice (slice : list byte) : option Addr :=
  if bool_decide (length slice = 4%nat) then Some (Addr4 slice)
  else if bool_decide (length slice = 16%nat) then Some (Addr6 slice)
  else None.

Definition Is4 (ip : Addr) : bool :=
  match ip with Addr4 _ => true | Addr6 _ => false end.

Definition Is6 (ip : Addr) : bool :=
  match ip with Addr4 _ => false | Addr6 _ => true end.

(** [ip.As16()]: an IPv4 address comes out IPv4-mapped, [::ffff:a.b.c.d]. *)
Definition As16 (ip : Addr) : list byte :=
  match ip with
  | Addr4 b => replicate 10 x00 ++ [xff; xff] ++ b
  | Addr6 b => b
  end.

(* ===================================================================== *)
(** ** The packages the control plane is a client of *)
(* ===================================================================== *)

(** [consts.DialerSelectionPolicy_*] *)
Inductive DialerSelectionPolicyKind : Type :=
| DialerSelectionPolicy_Fixed
| DialerSelectionPolicy_MinAverage10Latencies.

(** What [control_plane.go] imports from the rest of the repository
    ([common], [common/consts], [component/routing],
    [component/outbound], [component/outbound/dialer]) and from its own
    package ([ParseAddrHdr], [swap16], the routing matcher builder).
    None of it is defined in the file under study, so it is taken as
    given; [ApplyRulesOptimizers] alone is modelled further down. *)
Class Collaborators : Type := {
  (* common/consts *)
  BpfPinRoot : string;
  AppName : string;
  DisableL4TxChecksumKey : Z;
  DisableL4RxChecksumKey : Z;
  DisableL4ChecksumPolicy_SetZero : Z;
  EpochKey : Z;
  BigEndianTproxyPortKey : Z;
  OutboundDirect_String : string;
  (* component/routing *)
  RoutingRule : Type;
  RoutingRule_String : RoutingRule -> string;
  Parse : string -> Result (list RoutingRule * string);
  RefineFunctionParamKeyOptimizer : list RoutingRule -> Result (list RoutingRule);
  DatReaderOptimizer : list RoutingRule -> Result (list RoutingRule);
  MergeAndSortRulesOptimizer : list RoutingRule -> Result (list RoutingRule);
  DeduplicateParamsOptimizer : list RoutingRule -> Result (list RoutingRule);
  (* component/outbound/dialer *)
  Dialer : Type;
  NewFromLink : string -> Result Dialer;
  FullconeDirectDialer : Dialer;
  (* package control, other files *)
  bpfObjects : Type;
  TproxyIngress_FD : bpfObjects -> Z;
  TproxyEgress_FD : bpfObjects -> Z;
  RoutingMatcherBuilder : Type;
  NewRoutingMatcherBuilder : gmap string Z -> bpfObjects -> RoutingMatcherBuilder;
  ApplyMatcherBuilder :
    RoutingMatcherBuilder -> list RoutingRule -> string -> Result RoutingMatcherBuilder;
  Build : RoutingMatcherBuilder -> Result RoutingMatcherBuilder;
  LpmTries : Type;
  DomainSets : Type;
  builder_SimulatedLpmTries : RoutingMatcherBuilder -> LpmTries;
  builder_SimulatedDomainSet : RoutingMatcherBuilder -> DomainSets;
  dnsCacheEntry : Type;
  AddrHdr : Type;
  ParseAddrHdr : list byte -> Result (AddrHdr * Z);
  swap16 : Z -> Z;
  (* common *)
  Ipv6ByteSliceToUint32Array : list byte -> list Z;
  (* net, net/netip *)
  Conn : Type;
  AddrPort : Type;
  AddrPort_String : AddrPort -> string;
  IsLinkLocalUnicast : Addr -> bool;
  IsLinkLocalMulticast : Addr -> bool;
}.

(** [outbound.DialerSelectionPolicy] *)
Record DialerSelectionPolicy : Type := {
  Policy : DialerSelectionPolicyKind;
  FixedIndex : Z;
}.

(** [outbound.DialerGroup], as [outbound.NewDialerGroup] is called here:
    a name, its dialers and its selection policy. *)
Record DialerGroup `{Collaborators} : Type := NewDialerGroup {
  Name : string;
  Dialers : list Dialer;
  selectionPolicy : DialerSelectionPolicy;
}.

(* ===================================================================== *)
(** ** netlink objects *)
(* ===================================================================== *)

(** [netlink.MakeHandle(major, minor)] *)
Definition MakeHandle (major minor : Z) : Z :=
  Z.lor (Z.shiftl major 16) minor.

Definition HANDLE_CLSACT : Z := 0xFFFFFFF1.
Definition HANDLE_MIN_INGRESS : Z := 0xFFFFFFF2.
Definition HANDLE_MIN_EGRESS : Z := 0xFFFFFFF3.
Definition ETH_P_ALL : Z := 0x3.

(** [netlink.GenericQdisc] *)
Record GenericQdisc : Type := {
  q_LinkIndex : Z;
  q_Handle : Z;
  q_Parent : Z;
  QdiscType : string;
}.

(** [netlink.BpfFilter] *)
Record BpfFilter : Type := {
  f_LinkIndex : Z;
  f_Parent : Z;
  f_Handle : Z;
  Protocol : Z;
  Priority : Z;
  Fd : Z;
  f_Name : string;
  DirectAction : bool;
}.

#[global] Instance GenericQdisc_eq_dec : EqDecision GenericQdisc.
Proof. solve_decision. Defined.

#[global] Instance BpfFilter_eq_dec : EqDecision BpfFilter.
Proof. solve_decision. Defined.

(** The requests the control plane sends over netlink, in the order
    sent; the kernel's answer to each is the environment's. *)
Inductive NetlinkCall : Type :=
| QdiscAdd (q : GenericQdisc)
| QdiscDel (q : GenericQdisc)
| FilterAdd (f : BpfFilter)
| FilterDel (f : BpfFilter).

#[global] Instance NetlinkCall_eq_dec : EqDecision NetlinkCall.
Proof. solve_decision. Defined.

(** [bpfIfIp], the value type of [IfindexIpMap]. *)
Record bpfIfIp : Type := {
  Ip4 : list Z;
  Ip6 : list Z;
  HasIp4 : bool;
  HasIp6 : bool;
}.

(** The zero value of [bpfIfIp]. *)
Definition bpfIfIp_zero : bpfIfIp :=
  {| Ip4 := [0; 0; 0; 0]; Ip6 := [0; 0; 0; 0]; HasIp4 := false; HasIp6 := false |}.

(** logrus levels used by the file. *)
Inductive Level : Type := TraceLevel | WarnLevel | ErrorLevel.

#[global] Instance Level_eq_dec : EqDecision Level.
Proof. solve_decision. Defined.

(* ===================================================================== *)
(** ** The world outside the process *)
(* ===================================================================== *)

Section Model.
Context `{Collaborators}.

(** How the machine answers: fixed for a run, never changed by the code. *)
Record Environment : Type := {
  RemoveMemlock_answer : option error;
  (* the answer to the k-th call of loadBpfObjects, k from 0 *)
  loadBpfObjects_answer : nat -> Result bpfObjects;
  TraceLevel_enabled : bool;
  ParamMap_Update_answer : Z -> Z -> option error;
  IfindexIpMap_Update_answer : Z -> bpfIfIp -> option error;
  bpf_Close_answer : option error;
  LinkByName_answer : string -> Result Z;
  AddrList_answer : Z -> Result (list (list byte));
  (* requests already sent (oldest first), the request *)
  netlink_answer : list NetlinkCall -> NetlinkCall -> option error;
  Listen_answer : Z -> option error;
  ListenUDP_answer : Z -> option error;
}.

Record World : Type := {
  env : Environment;
  loads : nat;                      (* calls of loadBpfObjects so far *)
  removed : list string;            (* paths given to os.Remove, oldest first *)
  log : list (Level * string);      (* log lines, oldest first *)
  ParamMap : gmap Z Z;              (* bpf.ParamMap: uint32 -> uint32 *)
  IfindexIpMap : gmap Z bpfIfIp;    (* bpf.IfindexIpMap *)
  bpf_closed : bool;
  netlink_calls : list NetlinkCall; (* oldest first *)
  ctx_done : list bool;             (* one flag per context.WithCancel *)
}.

Definition set_loads (n : nat) (w : World) : World :=
  {| env := env w; loads := n; removed := removed w; log := log w;
     ParamMap := ParamMap w; IfindexIpMap := IfindexIpMap w;
     bpf_closed := bpf_closed w; netlink_calls := netlink_calls w;
     ctx_done := ctx_done w |}.

Definition set_removed (l : list string) (w : World) : World :=
  {| env := env w; loads := loads w; removed := l; log := log w;
     ParamMap := ParamMap w; IfindexIpMap := IfindexIpMap w;
     bpf_closed := bpf_closed w; netlink_calls := netlink_calls w;
     ctx_done := ctx_done w |}.

Definition set_log (l : list (Level * string)) (w : World) : World :=
  {| env := env w; loads := loads w; removed := removed w; log := l;
     ParamMap := ParamMap w; IfindexIpMap := IfindexIpMap w;
     bpf_closed := bpf_closed w; netlink_calls := netlink_calls w;
     ctx_done := ctx_done w |}.

Definition set_ParamMap (m : gmap Z Z) (w : World) : World :=
  {| env := env w; loads := loads w; removed := removed w; log := log w;
     ParamMap := m; IfindexIpMap := IfindexIpMap w;
     bpf_closed := bpf_closed w; netlink_calls := netlink_calls w;
     ctx_done := ctx_done w |}.

Definition set_IfindexIpMap (m : gmap Z bpfIfIp) (w : World) : World :=
  {| env := env w; loads := loads w; removed := removed w; log := log w;
     ParamMap := ParamMap w; IfindexIpMap := m;
     bpf_closed := bpf_closed w; netlink_calls := netlink_calls w;
     ctx_done := ctx_done w |}.

Definition set_bpf_closed (b : bool) (w : World) : World :=
  {| env := env w; loads := loads w; removed := removed w; log := log w;
     ParamMap := ParamMap w; IfindexIpMap := IfindexIpMap w;
     bpf_closed := b; netlink_calls := netlink_calls w;
     ctx_done := ctx_done w |}.

Definition set_netlink_calls (l : list NetlinkCall) (w : World) : World :=
  {| env := env w; loads := loads w; removed := removed w; log := log w;
     ParamMap := ParamMap w; IfindexIpMap := IfindexIpMap w;
     bpf_closed := bpf_closed w; netlink_calls := l;
     ctx_done := ctx_done w |}.

Definition set_ctx_done (l : list bool) (w : World) : World :=
  {| env := env w; loads := loads w; removed := removed w; log := log w;
     ParamMap := ParamMap w; IfindexIpMap := IfindexIpMap w;
     bpf_closed := bpf_closed w; netlink_calls := netlink_calls w;
     ctx_done := l |}.

(** *** Calls into the world *)

(** [log.Warnf], [log.Errorf], [log.Tracef], the text already formatted. *)
Definition log_at (lvl : Level) (msg : string) (w : World) : World :=
  set_log (log w ++ [(lvl, msg)]) w.

(** [loadBpfObjects(&bpf, opts)] *)
Definition loadBpfObjects (w : World) : World * Result bpfObjects :=
  (set_loads (S (loads w)) w, loadBpfObjects_answer (env w) (loads w)).

(** [os.Remove(path)]; the code drops its result. *)
Definition os_Remove (path : string) (w : World) : World :=
  set_removed (removed w ++ [path]) w.

(** [bpf.ParamMap.Update(key, value, ebpf.UpdateAny)] *)
Definition ParamMap_Update (key value : Z) (w : World) : World * option error :=
  match ParamMap_Update_answer (env w) key value with
  | Some e => (w, Some e)
  | None => (set_ParamMap (<[key := value]> (ParamMap w)) w, None)
  end.

(** [bpf.ParamMap.Lookup(key, &out)]: [out] keeps its value when the
    key is absent. *)
Definition ParamMap_Lookup (key : Z) (out : Z) (w : World) : Z :=
  match ParamMap w !! key with
  | Some v => v
  | None => out
  end.

(** [bpf.IfindexIpMap.Update(key, value, ebpf.UpdateAny)] *)
Definition IfindexIpMap_Update (key : Z) (value : bpfIfIp) (w : World)
  : World * option error :=
  match IfindexIpMap_Update_answer (env w) key value with
  | Some e => (w, Some e)
  | None => (set_IfindexIpMap (<[key := value]> (IfindexIpMap w)) w, None)
  end.

(** [bpf.Close] *)
Definition bpf_Close (w : World) : World * option error :=
  (set_bpf_closed true w, bpf_Close_answer (env w)).

(** [netlink.QdiscAdd], [QdiscDel], [FilterAdd], [FilterDel] *)
Definition netlink (call : NetlinkCall) (w : World) : World * option error :=
  (set_netlink_calls (netlink_calls w ++ [call]) w,
   netlink_answer (env w) (netlink_calls w) call).

(** [context.WithCancel(context.Background())]: the new context's index. *)
Definition WithCancel (w : World) : World * nat :=
  (set_ctx_done (ctx_done w ++ [false]) w, length (ctx_done w)).

(** The [cancel] function of context [ctx]. *)
Definition cancel (ctx : nat) (w : World) : World :=
  set_ctx_done (<[ctx := true]> (ctx_done w)) w.

(** Whether [<-ctx.Done()] can proceed. *)
Definition Done (ctx : nat) (w : World) : bool :=
  match ctx_done w !! ctx with
  | Some b => b
  | None => false
  end.

(* ===================================================================== *)
(** ** ControlPlane *)
(* ===================================================================== *)

(** [type ControlPlane struct]; the logger and the mutex have no
    content here. *)
Record ControlPlane : Type := {
  outbounds : list DialerGroup;
  outboundName2Id : gmap string Z;
  bpf : bpfObjects;
  SimulatedLpmTries : LpmTries;
  SimulatedDomainSet : DomainSets;
  Final : string;
  dnsCache : gmap string dnsCacheEntry;
  epoch : Z;
  deferFuncs : list (World -> World * option error);
}.

Definition set_deferFuncs (fs : list (World -> World * option error))
  (c : ControlPlane) : ControlPlane :=
  {| outbounds := outbounds c; outboundName2Id := outboundName2Id c;
     bpf := bpf c; SimulatedLpmTries := SimulatedLpmTries c;
     SimulatedDomainSet := SimulatedDomainSet c; Final := Final c;
     dnsCache := dnsCache c; epoch := epoch c; deferFuncs := fs |}.

(* ===================================================================== *)
(** ** NewControlPlane *)
(* ===================================================================== *)

(** [pinPath := filepath.Join(consts.BpfPinRoot, consts.AppName)] *)
Definition pinPath : string := filepath_Join BpfPinRoot AppName.

(** Lines 68-73: the name of the pinned map an incompatibility error
    names; [None] when the text lacks ["use pinned map "]
    ([iPrefix == -1]). *)
Definition pinned_map_name (msg : string) : option string :=
  let prefix := "use pinned map " in
  match strings_Index msg prefix with
  | None => None
  | Some iPrefix =>
      Some (before_colon (string_from (iPrefix + String.length prefix) msg))
  end.

(** Lines 61-79, the [retry_load] label and its [goto].  One unit of
    [fuel] per pass through the label; [None] when the fuel runs out
    before the code leaves the loop. *)
Fixpoint retry_load (fuel : nat) (w : World) : option (World * Result bpfObjects) :=
  match fuel with
  | O => None
  | S fuel' =>
      let '(w1, r) := loadBpfObjects w in
      match r with
      | Ok objs => Some (w1, Ok objs)
      | Err err =>
          if errors_Is err ErrMapIncompatible then
            match pinned_map_name (Error err) with
            | None =>
                Some (w1, Err (Errorf_w "loading objects: bad format: " err))
            | Some mapName =>
                let w2 := os_Remove (filepath_Join pinPath mapName) w1 in
                let w3 :=
                  log_at WarnLevel
                    ("New map format was incompatible with existing map "
                       +:+ mapName +:+ ", and the old one was removed.") w2 in
                retry_load fuel' w3
            end
          else Some (w1, Err (Errorf_w "loading objects: " err))
      end
  end.

(** Lines 89-100: the two checksum policies, then the epoch: looked
    up (a failed lookup leaves 0), incremented as a [uint32], written
    back.  Returns the incremented epoch. *)
Definition store_params (w : World) : World * Result Z :=
  let '(w1, e1) :=
    ParamMap_Update DisableL4TxChecksumKey DisableL4ChecksumPolicy_SetZero w in
  match e1 with
  | Some err => (w1, Err err)
  | None =>
      let '(w2, e2) :=
        ParamMap_Update DisableL4RxChecksumKey DisableL4ChecksumPolicy_SetZero w1 in
      match e2 with
      | Some err => (w2, Err err)
      | None =>
          let epoch0 := ParamMap_Lookup EpochKey 0 w2 in
          let epoch1 := uint32 (epoch0 + 1) in
          let '(w3, e3) := ParamMap_Update EpochKey epoch1 w2 in
          match e3 with
          | Some err => (w3, Err err)
          | None => (w3, Ok epoch1)
          end
      end
  end.

(** Modelled from the spec: [routing.ApplyRulesOptimizers], which is not
    in the file under study.  The spec's words (section 4.1): the
    operations are "applied in order, each taking and returning a
    RoutingPolicy", and a failing one fails the compilation. *)
Fixpoint ApplyRulesOptimizers (rules : list RoutingRule)
  (optimizers : list (list RoutingRule -> Result (list RoutingRule)))
  : Result (list RoutingRule) :=
  match optimizers with
  | [] => Ok rules
  | o :: rest =>
      match o rules with
      | Ok rules' => ApplyRulesOptimizers rules' rest
      | Err e => Err e
      end
  end.

(** Lines 115-126: parse, then the four optimizers in the order the
    call lists them. *)
Definition compile_routing (routingA : string)
  : Result (list RoutingRule * string) :=
  match Parse routingA with
  | Err err => Err (Errorf_w ("routingA error: " +:+ String "010" " ") err)
  | Ok (rules, final) =>
      match ApplyRulesOptimizers rules
              [RefineFunctionParamKeyOptimizer;
               DatReaderOptimizer;
               MergeAndSortRulesOptimizer;
               DeduplicateParamsOptimizer] with
      | Err err =>
          Err (Errorf_w ("ApplyRulesOptimizers error: " +:+ String "010" " ") err)
      | Ok rules' => Ok (rules', final)
      end
  end.

(** Lines 127-133: the trace line. *)
Definition trace_routing (rules : list RoutingRule) (final : string)
  (w : World) : World :=
  if TraceLevel_enabled (env w) then
    log_at TraceLevel
      ("RoutingA:" +:+ String "010" ""
         +:+ fold_left (fun acc rule => acc +:+ RoutingRule_String rule) rules ""
         +:+ "final: " +:+ final +:+ String "010" "") w
  else w.

(** Lines 139-151: the outbounds the source declares. *)
Definition declared_outbounds (d : Dialer) : list DialerGroup :=
  [ NewDialerGroup _ OutboundDirect_String [FullconeDirectDialer]
      {| Policy := DialerSelectionPolicy_Fixed; FixedIndex := 0 |};
    NewDialerGroup _ "proxy" [d]
      {| Policy := DialerSelectionPolicy_MinAverage10Latencies; FixedIndex := 0 |} ].

(** Lines 156-159: [for i, o := range outbounds { m[o.Name] = uint8(i) }],
    [i] being the index of the head of [outbounds]. *)
Fixpoint fill_outboundName2Id (i : nat) (outbounds : list DialerGroup)
  (m : gmap string Z) : gmap string Z :=
  match outbounds with
  | [] => m
  | o :: rest => fill_outboundName2Id (S i) rest (<[Name o := uint8 (Z.of_nat i)]> m)
  end.

(** Lines 152-159: "Generate outboundName2Id from outbounds." *)
Definition generate_outboundName2Id (outbounds : list DialerGroup)
  : Result (gmap string Z) :=
  if bool_decide (Z.of_nat (length outbounds) > 0xff) then
    Err (errorString "too many outbounds")
  else Ok (fill_outboundName2Id 0 outbounds ∅).

(** Lines 160-166: the routing matcher. *)
Definition build_matcher (name2id : gmap string Z) (objs : bpfObjects)
  (rules : list RoutingRule) (final : string) : Result RoutingMatcherBuilder :=
  let builder := NewRoutingMatcherBuilder name2id objs in
  match ApplyMatcherBuilder builder rules final with
  | Err err => Err (Errorf_w "ApplyMatcherBuilder: " err)
  | Ok builder1 =>
      match Build builder1 with
      | Err err => Err (Errorf_w "RoutingMatcherBuilder.Build: " err)
      | Ok builder2 => Ok builder2
      end
  end.

(** Lines 113-181, from the parsed policy to the [ControlPlane].  The
    source builds its two outbounds in place; [declare] stands for that
    literal so that the outbound-count guard can be stated for any
    list. *)
Definition assemble (declare : Dialer -> list DialerGroup) (routingA : string)
  (objs : bpfObjects) (epoch1 : Z) (w : World) : World * Result ControlPlane :=
  match compile_routing routingA with
  | Err err => (w, Err err)
  | Ok (rules, final) =>
      let w1 := trace_routing rules final w in
      match NewFromLink "socks5://localhost:1080" with
      | Err err => (w1, Err err)
      | Ok d =>
          let outbounds := declare d in
          match generate_outboundName2Id outbounds with
          | Err err => (w1, Err err)
          | Ok name2id =>
              match build_matcher name2id objs rules final with
              | Err err => (w1, Err err)
              | Ok builder =>
                  (w1, Ok {| outbounds := outbounds;
                             outboundName2Id := name2id;
                             bpf := objs;
                             SimulatedLpmTries := builder_SimulatedLpmTries builder;
                             SimulatedDomainSet := builder_SimulatedDomainSet builder;
                             Final := final;
                             dnsCache := ∅;
                             epoch := epoch1;
                             deferFuncs := [bpf_Close] |})
              end
          end
      end
  end.

(** [NewControlPlane], with the outbounds literal abstracted. *)
Definition NewControlPlaneWith (declare : Dialer -> list DialerGroup)
  (fuel : nat) (routingA : string) (w : World)
  : option (World * Result ControlPlane) :=
  match RemoveMemlock_answer (env w) with
  | Some err => Some (w, Err (Errorf_v "rlimit.RemoveMemlock:" err))
  | None =>
      (* os.MkdirAll(pinPath, 0755): result dropped *)
      match retry_load fuel w with
      | None => None
      | Some (w1, Err err) => Some (w1, Err err)
      | Some (w1, Ok objs) =>
          let '(w2, r) := store_params w1 in
          match r with
          | Err err => Some (w2, Err err)
          | Ok epoch1 => Some (assemble declare routingA objs epoch1 w2)
          end
      end
  end.

(** [func NewControlPlane]: the constructor, a [ControlPlane] or an
    error. *)
Definition NewControlPlane (fuel : nat) (routingA : string) (w : World)
  : option (World * Result ControlPlane) :=
  NewControlPlaneWith declared_outbounds fuel routingA w.

(* ===================================================================== *)
(** ** BindLink *)
(* ===================================================================== *)

(** Lines 199-223: the loop over the addresses of the link, [linkIp]
    being the record filled so far. *)
Fixpoint scan_ipnets (ipnets : list (list byte)) (linkIp : bpfIfIp) : bpfIfIp :=
  match ipnets with
  | [] => linkIp
  | ipnet :: rest =>
      match AddrFromSlice ipnet with
      | None => scan_ipnets rest linkIp
      | Some ip =>
          if IsLinkLocalUnicast ip || IsLinkLocalMulticast ip then
            scan_ipnets rest linkIp
          else if (Is6 ip && HasIp6 linkIp) || (Is4 ip && HasIp4 linkIp) then
            scan_ipnets rest linkIp
          else
            let ip6format := As16 ip in
            let linkIp' :=
              if Is4 ip then
                {| Ip4 := Ipv6ByteSliceToUint32Array ip6format;
                   Ip6 := Ip6 linkIp;
                   HasIp4 := true;
                   HasIp6 := HasIp6 linkIp |}
              else
                {| Ip4 := Ip4 linkIp;
                   Ip6 := Ipv6ByteSliceToUint32Array ip6format;
                   HasIp4 := HasIp4 linkIp;
                   HasIp6 := true |} in
            if HasIp4 linkIp' && HasIp6 linkIp' then linkIp'
            else scan_ipnets rest linkIp'
      end
  end.

(** Lines 229-236 *)
Definition clsact_qdisc (index : Z) : GenericQdisc :=
  {| q_LinkIndex := index;
     q_Handle := MakeHandle 0xffff 0;
     q_Parent := HANDLE_CLSACT;
     QdiscType := "clsact" |}.

(** Lines 251-262 *)
Definition ingress_filter (c : ControlPlane) (index : Z) : BpfFilter :=
  {| f_LinkIndex := index;
     f_Parent := HANDLE_MIN_INGRESS;
     f_Handle := MakeHandle 0 1;
     Protocol := ETH_P_ALL;
     Priority := 0;
     Fd := TproxyIngress_FD (bpf c);
     f_Name := AppName +:+ "_ingress";
     DirectAction := true |}.

(** Lines 269-280 *)
Definition egress_filter (c : ControlPlane) (index : Z) : BpfFilter :=
  {| f_LinkIndex := index;
     f_Parent := HANDLE_MIN_EGRESS;
     f_Handle := MakeHandle 0 1;
     Protocol := ETH_P_ALL;
     Priority := 0;
     Fd := TproxyEgress_FD (bpf c);
     f_Name := AppName +:+ "_egress";
     DirectAction := true |}.

(** [c.deferFuncs = append(c.deferFuncs, f)] *)
Definition append_deferFunc (f : World -> World * option error)
  (c : ControlPlane) : ControlPlane :=
  set_deferFuncs (deferFuncs c ++ [f]) c.

(** Lines 237-246: add the qdisc; when it is there already, delete it
    and add it again. *)
Definition add_qdisc (qdisc : GenericQdisc) (w : World) : World * option error :=
  let '(w1, e1) := netlink (QdiscAdd qdisc) w in
  match e1 with
  | None => (w1, None)
  | Some err =>
      let '(w2, err') :=
        if os_IsExist err then
          let '(wd, _) := netlink (QdiscDel qdisc) w1 in
          netlink (QdiscAdd qdisc) wd
        else (w1, Some err) in
      match err' with
      | Some err'' => (w2, Some (Errorf_w "cannot add clsact qdisc: " err''))
      | None => (w2, None)
      end
  end.

(** Lines 228-287: qdisc and filters, each followed by the teardown
    action the source appends for it. *)
Definition install_hooks (c : ControlPlane) (index : Z) (w : World)
  : World * ControlPlane * option error :=
  let qdisc := clsact_qdisc index in
  let '(w1, e1) := add_qdisc qdisc w in
  match e1 with
  | Some err => (w1, c, Some err)
  | None =>
      let c1 := append_deferFunc (fun w => netlink (QdiscDel qdisc) w) c in
      let filter := ingress_filter c1 index in
      let '(w2, e2) := netlink (FilterAdd filter) w1 in
      match e2 with
      | Some err =>
          (w2, c1, Some (Errorf_w "cannot attach ebpf object to filter ingress: " err))
      | None =>
          let c2 := append_deferFunc (fun w => netlink (FilterDel filter) w) c1 in
          let filterEgress := egress_filter c2 index in
          let '(w3, e3) := netlink (FilterAdd filterEgress) w2 in
          match e3 with
          | Some err =>
              (w3, c2,
               Some (Errorf_w "cannot attach ebpf object to filter ingress: " err))
          | None =>
              let c3 := append_deferFunc (fun w => netlink (FilterDel filter) w) c2 in
              (w3, c3, None)
          end
      end
  end.

(** [func (c *ControlPlane) BindLink(ifname string) error]; the
    receiver is returned with the teardown actions appended to it. *)
Definition BindLink (c : ControlPlane) (ifname : string) (w : World)
  : World * ControlPlane * option error :=
  match LinkByName_answer (env w) ifname with
  | Err err => (w, c, Some err)
  | Ok index =>
      match AddrList_answer (env w) index with
      | Err err => (w, c, Some err)
      | Ok ipnets =>
          if bool_decide (length ipnets = 0%nat) then
            (w, c, Some (errorString ("interface " +:+ ifname +:+ " has no ip")))
          else
            let linkIp := scan_ipnets ipnets bpfIfIp_zero in
            let '(w1, e) := IfindexIpMap_Update (uint32 index) linkIp w in
            match e with
            | Some err => (w1, c, Some (Errorf_w "update IfindexIpsMap: " err))
            | None => install_hooks c index w1
            end
      end
  end.

(* ===================================================================== *)
(** ** Close *)
(* ===================================================================== *)

(** Lines 365-374: [for i := len(c.deferFuncs) - 1; i >= 0; i--], with
    [n = i + 1] actions still to invoke and [err] the named result so
    far.  The loop does not depend on what the actions act on, hence
    the type [W]. *)
Fixpoint invoke_deferFuncs {W : Type} (fs : list (W -> W * option error))
  (n : nat) (w : W) (err : option error) : W * option error :=
  match n with
  | O => (w, err)
  | S i =>
      match fs !! i with
      | None => (w, err)  (* i < len(fs) throughout: never taken *)
      | Some f =>
          let '(w', e) := f w in
          let err' :=
            match e with
            | Some e =>
                match err with
                | Some err => Some (Errorf_w_semicolon_v err e)
                | None => Some e
                end
            | None => err
            end in
          invoke_deferFuncs fs i w' err'
      end
  end.

(** [func (c *ControlPlane) Close() (err error)] *)
Definition Close (c : ControlPlane) (w : World) : World * option error :=
  invoke_deferFuncs (deferFuncs c) (length (deferFuncs c)) w None.

(* ===================================================================== *)
(** ** ListenAndServe *)
(* ===================================================================== *)

(** The goroutines the two loops start, one per accepted item. *)
Inductive Task : Type :=
| handleConn (lconn : Conn)
| handlePkt (data : list byte) (lAddrPort : AddrPort) (addrHdr : AddrHdr).

(** Where a loop goroutine stands: in its [for], past its [break], or
    stopped by a run-time panic (a slice out of range). *)
Inductive Loop : Type := Running | Exited | Panicked.

#[global] Instance Loop_eq_dec : EqDecision Loop.
Proof. solve_decision. Defined.

Definition closed_network_connection : string :=
  "use of closed network connection".

(** Lines 319-330: one pass of the stream loop on what
    [listener.Accept()] returned.  Leaving the loop runs the deferred
    [cancel()]. *)
Definition accept_pass (ctx : nat) (accepted : Result Conn)
  (w : World) (tasks : list Task) : World * list Task * Loop :=
  match accepted with
  | Err err =>
      let w1 :=
        if negb (strings_Contains (Error err) closed_network_connection) then
          log_at ErrorLevel ("Error when accept: " +:+ Error err) w
        else w in
      (cancel ctx w1, tasks, Exited)
  | Ok lconn => (w, tasks ++ [handleConn lconn], Running)
  end.

(** Lines 336-356: one pass of the datagram loop on what
    [lConn.ReadFromUDPAddrPort(buf[:])] returned, [pkt] being [buf[:n]].
    [pool.Get(n - dataOffset)] followed by [copy] yields
    [buf[dataOffset:n]], and panics when the offset is outside [0..n]. *)
Definition read_pass (ctx : nat) (received : list byte * AddrPort * option error)
  (w : World) (tasks : list Task) : World * list Task * Loop :=
  let '(pkt, lAddrPort, err) := received in
  match err with
  | Some err =>
      let w1 :=
        if negb (strings_Contains (Error err) closed_network_connection) then
          log_at ErrorLevel
            ("ReadFromUDPAddrPort: " +:+ AddrPort_String lAddrPort
               +:+ ", " +:+ Error err) w
        else w in
      (cancel ctx w1, tasks, Exited)
  | None =>
      match ParseAddrHdr pkt with
      | Err _ => (log_at WarnLevel "No AddrPort presented" w, tasks, Running)
      | Ok (addrHdr, dataOffset) =>
          if (dataOffset <? 0) || (Z.of_nat (length pkt) <? dataOffset) then
            (cancel ctx w, tasks, Panicked)
          else
            let newBuf := drop (Z.to_nat dataOffset) pkt in
            (w, tasks ++ [handlePkt newBuf lAddrPort addrHdr], Running)
      end
  end.

(** Lines 316-332: the stream loop run on the successive results of
    [Accept]; [Running] when it has consumed them all and waits for the
    next. *)
Fixpoint accept_loop (ctx : nat) (results : list (Result Conn))
  (w : World) (tasks : list Task) : World * list Task * Loop :=
  match results with
  | [] => (w, tasks, Running)
  | r :: rest =>
      match accept_pass ctx r w tasks with
      | (w', tasks', Running) => accept_loop ctx rest w' tasks'
      | stopped => stopped
      end
  end.

(** Lines 333-358: the datagram loop, likewise. *)
Fixpoint read_loop (ctx : nat)
  (results : list (list byte * AddrPort * option error))
  (w : World) (tasks : list Task) : World * list Task * Loop :=
  match results with
  | [] => (w, tasks, Running)
  | r :: rest =>
      match read_pass ctx r w tasks with
      | (w', tasks', Running) => read_loop ctx rest w' tasks'
      | stopped => stopped
      end
  end.

(** One call of [ListenAndServe] past line 358: the world, the context
    of the call, the two loop goroutines, the two listeners, and the
    caller: blocked on [<-ctx.Done()] ([None]) or returned with the
    named result [err]. *)
Record Serving : Type := {
  sv_world : World;
  sv_ctx : nat;
  sv_tasks : list Task;
  sv_tcp : Loop;
  sv_udp : Loop;
  listener_closed : bool;
  lConn_closed : bool;
  sv_returned : option (option error);
}.

(** Lines 292-315: listen, mirror the port, create the context and
    register its [cancel].  [inl err]: the call has returned [err]
    (the deferred closes done); [inr s]: both loops started. *)
Definition ListenAndServe_start (c : ControlPlane) (port : Z) (w : World)
  : World * ControlPlane * (error + Serving) :=
  match Listen_answer (env w) port with
  | Some err => (w, c, inl (Errorf_w "listenTCP: " err))
  | None =>
      match ListenUDP_answer (env w) port with
      | Some err => (w, c, inl (Errorf_w "listenUDP: " err))
      | None =>
          let '(w1, e) :=
            ParamMap_Update BigEndianTproxyPortKey (uint32 (swap16 port)) w in
          match e with
          | Some err => (w1, c, inl err)
          | None =>
              let '(w2, ctx) := WithCancel w1 in
              let c1 := append_deferFunc (fun w => (cancel ctx w, None)) c in
              (w2, c1,
               inr {| sv_world := w2; sv_ctx := ctx; sv_tasks := [];
                      sv_tcp := Running; sv_udp := Running;
                      listener_closed := false; lConn_closed := false;
                      sv_returned := None |})
          end
      end
  end.









End Model.

(* ===================================================================== *)
(** ** A concrete machine *)
(* ===================================================================== *)

(** An original-destination header in the layout the design describes:
    one family byte (4 or 6 here), the address (4 or 16 bytes), a
    two-byte port; 7 or 19 bytes in all. *)
Definition sample_ParseAddrHdr (pkt : list byte)
  : Result ((list byte * list byte) * Z) :=
  match pkt with
  | [] => Err (errorString "empty packet")
  | family :: rest =>
      if Byte.eqb family x04 then
        if (6 <=? length rest)%nat then
          Ok ((take 4 rest, take 2 (drop 4 rest)), 7)
        else Err (errorString "short header")
      else if Byte.eqb family x06 then
        if (18 <=? length rest)%nat then
          Ok ((take 16 rest, take 2 (drop 16 rest)), 19)
        else Err (errorString "short header")
      else Err (errorString "bad address family")
  end.

(** A little-endian word out of its bytes. *)
Definition le_word (bs : list byte) : Z :=
  fold_right (fun b acc => Z.of_N (Byte.to_N b) + 256 * acc) 0 bs.

(** [n] little-endian 32-bit words out of [4 * n] bytes. *)
Fixpoint sample_words (bs : list byte) (n : nat) : list Z :=
  match n with
  | O => []
  | S n' => le_word (take 4 bs) :: sample_words (drop 4 bs) n'
  end.

(** 169.254.0.0/16 and fe80::/10. *)
Definition sample_IsLinkLocalUnicast (ip : Addr) : bool :=
  match ip with
  | Addr4 (b0 :: b1 :: _) => Byte.eqb b0 xa9 && Byte.eqb b1 xfe
  | Addr6 (b0 :: b1 :: _) =>
      Byte.eqb b0 xfe && N.eqb (N.land (Byte.to_N b1) 0xc0) 0x80
  | _ => false
  end.

(** 224.0.0.0/24 and ff02::/16. *)
Definition sample_IsLinkLocalMulticast (ip : Addr) : bool :=
  match ip with
  | Addr4 (b0 :: b1 :: b2 :: _) =>
      Byte.eqb b0 xe0 && Byte.eqb b1 x00 && Byte.eqb b2 x00
  | Addr6 (b0 :: b1 :: _) =>
      Byte.eqb b0 xff && N.eqb (N.land (Byte.to_N b1) 0x0f) 0x02
  | _ => false
  end.

(** Collaborators small enough to run: rules are lines of text, every
    optimizer but the data reader is the identity, the data reader
    rejects a rule that names the file [missing.dat]. *)
Definition sample : Collaborators :=
  {| BpfPinRoot := "/sys/fs/bpf";
     AppName := "dae";
     DisableL4TxChecksumKey := 2;
     DisableL4RxChecksumKey := 3;
     DisableL4ChecksumPolicy_SetZero := 2;
     EpochKey := 4;
     BigEndianTproxyPortKey := 1;
     OutboundDirect_String := "direct";
     RoutingRule := string;
     RoutingRule_String := fun r => r +:+ String "010" "";
     Parse := fun text =>
       if String.eqb text "" then Err (errorString "line 1: syntax error")
       else Ok ([text], "direct");
     RefineFunctionParamKeyOptimizer := fun rules => Ok rules;
     DatReaderOptimizer := fun rules =>
       if existsb (String.eqb "missing.dat") rules
       then Err (errorString "missing.dat: not found")
       else Ok rules;
     MergeAndSortRulesOptimizer := fun rules => Ok rules;
     DeduplicateParamsOptimizer := fun rules => Ok rules;
     Dialer := string;
     NewFromLink := fun link => Ok link;
     FullconeDirectDialer := "direct";
     bpfObjects := Z * Z;
     TproxyIngress_FD := fst;
     TproxyEgress_FD := snd;
     RoutingMatcherBuilder := gmap string Z * list string * string;
     NewRoutingMatcherBuilder := fun name2id _ => (name2id, [], "");
     ApplyMatcherBuilder := fun b rules final => Ok (b.1.1, rules, final);
     Build := fun b =>
       if String.eqb b.2 "" then Err (errorString "no final outbound")
       else Ok b;
     LpmTries := unit;
     DomainSets := unit;
     builder_SimulatedLpmTries := fun _ => tt;
     builder_SimulatedDomainSet := fun _ => tt;
     dnsCacheEntry := unit;
     AddrHdr := list byte * list byte;
     ParseAddrHdr := sample_ParseAddrHdr;
     swap16 := fun p => Z.lor (Z.shiftr p 8) (Z.shiftl (Z.land p 0xff) 8);
     Ipv6ByteSliceToUint32Array := fun bs => sample_words bs 4;
     Conn := nat;
     AddrPort := string;
     AddrPort_String := fun a => a;
     IsLinkLocalUnicast := sample_IsLinkLocalUnicast;
     IsLinkLocalMulticast := sample_IsLinkLocalMulticast |}.

Section Samples.
#[local] Existing Instance sample.

(** The error the loader reports for a pinned map of another format. *)
Definition incompatible_param_map : error :=
  wrapError
    "field ParamMap: use pinned map param_map: map spec is incompatible with existing map"
    (sentinelError ErrMapIncompatible "map spec is incompatible with existing map").

(** fe80::1, 192.168.1.10, 10.0.0.5 and 2001:db8::1. *)
Definition sample_ipnets : list (list byte) :=
  [ [xfe; x80; x00; x00; x00; x00; x00; x00;
     x00; x00; x00; x00; x00; x00; x00; x01];
    [xc0; xa8; x01; x0a];
    [x0a; x00; x00; x05];
    [x20; x01; x0d; xb8; x00; x00; x00; x00;
     x00; x00; x00; x00; x00; x00; x00; x01] ].

(** A machine on which everything succeeds; interface [eth0] has index
    2 and the addresses [sample_ipnets]. *)
Definition sample_env : Environment :=
  {| RemoveMemlock_answer := None;
     loadBpfObjects_answer := fun _ => Ok (7, 8);
     TraceLevel_enabled := false;
     ParamMap_Update_answer := fun _ _ => None;
     IfindexIpMap_Update_answer := fun _ _ => None;
     bpf_Close_answer := None;
     LinkByName_answer := fun ifname =>
       if String.eqb ifname "eth0" then Ok 2
       else Err (errorString "Link not found");
     AddrList_answer := fun _ => Ok sample_ipnets;
     netlink_answer := fun _ _ => None;
     Listen_answer := fun _ => None;
     ListenUDP_answer := fun _ => None |}.

Definition world_of (e : Environment) (params : gmap Z Z) : World :=
  {| env := e; loads := 0; removed := []; log := [];
     ParamMap := params; IfindexIpMap := ∅; bpf_closed := false;
     netlink_calls := []; ctx_done := [] |}.

(** A fresh machine whose stored epoch is 41. *)
Definition sample_world : World := world_of sample_env {[ 4 := 41 ]}.

(** The same machine with the stored epoch at the top of [uint32]. *)
Definition last_epoch_world : World := world_of sample_env {[ 4 := 4294967295 ]}.

Definition with_loader (answer : nat -> Result bpfObjects) (e : Environment)
  : Environment :=
  {| RemoveMemlock_answer := RemoveMemlock_answer e;
     loadBpfObjects_answer := answer;
     TraceLevel_enabled := TraceLevel_enabled e;
     ParamMap_Update_answer := ParamMap_Update_answer e;
     IfindexIpMap_Update_answer := IfindexIpMap_Update_answer e;
     bpf_Close_answer := bpf_Close_answer e;
     LinkByName_answer := LinkByName_answer e;
     AddrList_answer := AddrList_answer e;
     netlink_answer := netlink_answer e;
     Listen_answer := Listen_answer e;
     ListenUDP_answer := ListenUDP_answer e |}.


(** A machine whose loader reports an incompatible pinned map three
    times and then loads. *)
Definition thrice_world : World :=
  world_of
    (with_loader
       (fun k => if Nat.ltb k 3 then Err incompatible_param_map
                 else Ok (7, 8))
       sample_env) ∅.

(** That machine once the loop of [retry_load] has been left. *)
Definition thrice_loaded : World :=
  match retry_load 4 thrice_world with
  | Some (w, _) => w
  | None => thrice_world
  end.

Definition sample_routingA : string := "dip(224.0.0.0/3) -> proxy".

(** A control plane without content, for the branches never taken. *)
Definition blank_control_plane : ControlPlane :=
  {| outbounds := []; outboundName2Id := ∅; bpf := (0, 0);
     SimulatedLpmTries := tt; SimulatedDomainSet := tt; Final := "";
     dnsCache := ∅; epoch := 0; deferFuncs := [] |}.

(** Whether a run of the constructor has yielded a control plane, and
    the world and control plane it has yielded ([otherwise] when it
    has not). *)
Definition succeeded (run : option (World * Result ControlPlane)) : bool :=
  match run with
  | Some (_, Ok _) => true
  | _ => false
  end.

Definition yield (run : option (World * Result ControlPlane))
  (otherwise : World) : World * ControlPlane :=
  match run with
  | Some (w, Ok c) => (w, c)
  | _ => (otherwise, blank_control_plane)
  end.

(** The sample machine after a successful [NewControlPlane]. *)
Definition sample_started : World * ControlPlane :=
  yield (NewControlPlane 1 sample_routingA sample_world) sample_world.

(** The machine at the last epoch after a successful [NewControlPlane]. *)
Definition last_epoch_started : World * ControlPlane :=
  yield (NewControlPlane 1 sample_routingA last_epoch_world) last_epoch_world.

(** The same after [BindLink] on [eth0]. *)
Definition sample_bound : World * ControlPlane * option error :=
  BindLink sample_started.2 "eth0" sample_started.1.

(** The call in progress when [ListenAndServe_start] has started one. *)
Definition serving_of (started : error + Serving) : Serving :=
  match started with
  | inr s => s
  | inl _ =>
      {| sv_world := sample_world; sv_ctx := 0; sv_tasks := [];
         sv_tcp := Running; sv_udp := Running;
         listener_closed := false; lConn_closed := false;
         sv_returned := None |}
  end.

(** [ListenAndServe] on port 12345 after that, its loops started. *)
Definition sample_serving : Serving :=
  serving_of (ListenAndServe_start sample_bound.1.2 12345 sample_bound.1.1).2.

(** What [Accept] returns when the process is out of descriptors, and
    what it returns once the listener is closed. *)
Definition too_many_open_files : error :=
  errorString "accept tcp 0.0.0.0:12345: accept4: too many open files".

Definition listener_is_closed : error :=
  errorString "accept tcp 0.0.0.0:12345: use of closed network connection".



(** Two connections accepted. *)
Definition sample_accepted : list (Result (@Conn sample)) :=
  [Ok 1%nat; Ok 2%nat].

(** Three datagrams: an IPv4 header (10.0.0.1, port 53) and two bytes
    of payload; a packet with an unknown family byte; an IPv6 header
    cut short. *)
Definition sample_datagrams : list (list byte * @AddrPort sample) :=
  [ ([x04; x0a; x00; x00; x01; x00; x35; x68; x69], "192.168.1.7:40000");
    ([x09; x01; x02], "192.168.1.7:40001");
    ([x06; x20; x01], "192.168.1.7:40002") ].

(** Three teardown actions that leave their name in the log; the
    second and the first fail. *)
Definition release (name : string) (answer : option error)
  : World -> World * option error :=
  fun w => (log_at TraceLevel name w, answer).

Definition three_releases : ControlPlane :=
  set_deferFuncs
    [ release "A" (Some (errorString "A is busy"));
      release "B" (Some (errorString "B is gone"));
      release "C" None ]
    blank_control_plane.

End Samples.

(* ===================================================================== *)
(** ** Vocabulary of the properties *)
(* ===================================================================== *)

(** The actions [calls] invoked one after the other, first to last,
    each on the world its predecessor left: the final world and the
    errors of those that failed, in the order they failed. *)
Fixpoint run_in_order {W : Type} (calls : list (W -> W * option error))
  (w : W) : W * list error :=
  match calls with
  | [] => (w, [])
  | f :: rest =>
      let '(w1, e) := f w in
      let '(w2, es) := run_in_order rest w1 in
      (w2, match e with Some e => e :: es | None => es end)
  end.

(** One more failure [e] joined to what was combined so far. *)
Definition add_failure (err : option error) (e : error) : option error :=
  match err with
  | Some err => Some (Errorf_w_semicolon_v err e)
  | None => Some e
  end.

(** All the failures combined: none gives [nil]. *)
Definition combine_errors (errs : list error) : option error :=
  fold_left add_failure errs None.

(** Action number [i], made to note its number when it is invoked. *)
Definition numbered {W : Type} (i : nat) (f : W -> W * option error)
  : W * list nat -> (W * list nat) * option error :=
  fun st =>
    let '(w', e) := f st.1 in
    ((w', st.2 ++ [i]), e).

(** The innermost error of an [Unwrap] chain. *)
Fixpoint root_cause (e : error) : error :=
  match e with
  | wrapError _ inner => root_cause inner
  | _ => e
  end.

(** The transforms of the routing policy as the design orders them:
    parse, key refinement, external-data resolution, merge and sort,
    deduplication; the first failure is the failure of the whole. *)
Definition policy_pipeline `{Collaborators} (routingA : string)
  : Result (list RoutingRule * string) :=
  match Parse routingA with
  | Err e => Err e
  | Ok (parsed, final) =>
      match RefineFunctionParamKeyOptimizer parsed with
      | Err e => Err e
      | Ok refined =>
          match DatReaderOptimizer refined with
          | Err e => Err e
          | Ok resolved =>
              match MergeAndSortRulesOptimizer resolved with
              | Err e => Err e
              | Ok sorted =>
                  match DeduplicateParamsOptimizer sorted with
                  | Err e => Err e
                  | Ok deduplicated => Ok (deduplicated, final)
                  end
              end
          end
      end
  end.

(** What an answer of the loader makes [retry_load] do: the pinned map
    to remove before loading again, or [None] when the loop is left. *)
Definition names_pinned_map `{Collaborators} (r : Result bpfObjects)
  : option string :=
  match r with
  | Ok _ => None
  | Err err =>
      if errors_Is err ErrMapIncompatible then pinned_map_name (Error err)
      else None
  end.

(** What the constructor goes on with after an answer that ends the
    loop: the loaded objects, or a fatal error. *)
Definition settle `{Collaborators} (r : Result bpfObjects) : Result bpfObjects :=
  match r with
  | Ok objs => Ok objs
  | Err err =>
      if errors_Is err ErrMapIncompatible then
        Err (Errorf_w "loading objects: bad format: " err)
      else Err (Errorf_w "loading objects: " err)
  end.

(** The answer to the [j]-th load from world [w] on. *)
Definition answer_from `{Collaborators} (w : World) (j : nat)
  : Result bpfObjects :=
  loadBpfObjects_answer (env w) (loads w + j)%nat.

(** The pinned maps named by the first [k] answers from [w] on. *)
Definition stale_maps `{Collaborators} (w : World) (k : nat) : list string :=
  omap (fun j => names_pinned_map (answer_from w j)) (seq 0 k).

(** What the datagram loop owes a received packet: a task on the
    bytes after the header when the header parses, a warning when it
    does not. *)
Definition handed_over `{Collaborators} (pkt : list byte)
  (lAddrPort : AddrPort) : option Task :=
  match ParseAddrHdr pkt with
  | Ok (addrHdr, dataOffset) =>
      Some (handlePkt (drop (Z.to_nat dataOffset) pkt) lAddrPort addrHdr)
  | Err _ => None
  end.

Definition warned `{Collaborators} (pkt : list byte) : option (Level * string) :=
  match ParseAddrHdr pkt with
  | Ok _ => None
  | Err _ => Some (WarnLevel, "No AddrPort presented")
  end.

(** The error-level line an accept or read error earns: none when its
    text says the listener was closed. *)
Definition error_line (text : string) (err : error) : list (Level * string) :=
  if strings_Contains (Error err) closed_network_connection then []
  else [(ErrorLevel, text +:+ Error err)].

(** An address [BindLink] may record: not link-local. *)
Definition eligible `{Collaborators} (ip : Addr) : bool :=
  negb (IsLinkLocalUnicast ip || IsLinkLocalMulticast ip).

(** The first address of the list, in list order, that is an address
    at all, is eligible and belongs to [family]. *)
Fixpoint first_eligible `{Collaborators} (family : Addr -> bool)
  (ipnets : list (list byte)) : option Addr :=
  match ipnets with
  | [] => None
  | ipnet :: rest =>
      match AddrFromSlice ipnet with
      | Some ip =>
          if eligible ip && family ip then Some ip
          else first_eligible family rest
      | None => first_eligible family rest
      end
  end.

(** The form in which an address goes into [bpfIfIp]: its 16 bytes as
    four 32-bit words. *)
Definition stored_form `{Collaborators} (ip : Addr) : list Z :=
  Ipv6ByteSliceToUint32Array (As16 ip).

(** A teardown action that creates no context, drops none and revives
    none: what holds of every action the file registers. *)
Definition keeps_contexts `{Collaborators} (f : World -> World * option error)
  : Prop :=
  forall w,
    length (ctx_done (f w).1) = length (ctx_done w)
    /\ forall ctx, Done ctx w = true -> Done ctx (f w).1 = true.


Lemma append_assoc (s1 s2 s3 : string) :
  (s1 +:+ s2) +:+ s3 = s1 +:+ (s2 +:+ s3).
Proof.
  induction s1 as [|c s1 IH]; [reflexivity|].
  change (String c ((s1 +:+ s2) +:+ s3) = String c (s1 +:+ (s2 +:+ s3))).
  by rewrite IH.
Qed.

Lemma omap_fmap_compose {A B C : Type} (g : A -> B) (f : B -> option C)
  (l : list A) :
  omap f (g <$> l) = omap (fun x => f (g x)) l.
Proof.
  induction l as [|x l IH]; [done|].
  csimpl. rewrite IH. by destruct (f (g x)).
Qed.


Section Properties.
Context `{Collaborators}.

(* --------------------------------------------------------------------- *)
(** *** Close *)
(* --------------------------------------------------------------------- *)

Lemma invoke_deferFuncs_run {W : Type} (fs : list (W -> W * option error)) :
  forall (n : nat) (w : W) (err : option error),
    (n <= length fs)%nat ->
    invoke_deferFuncs fs n w err =
      ((run_in_order (rev (take n fs)) w).1,
       fold_left add_failure (run_in_order (rev (take n fs)) w).2 err).
Proof.
  induction n as [|i IH]; intros w err Hn.
  - reflexivity.
  - destruct (lookup_lt_is_Some_2 fs i ltac:(lia)) as [f Hf].
    rewrite (take_S_r _ _ _ Hf), rev_app_distr. simpl.
    rewrite Hf. destruct (f w) as [w' e].
    rewrite IH by lia.
    destruct (run_in_order (rev (take i fs)) w') as [w2 es].
    destruct e as [e|]; reflexivity.
Qed.

Lemma run_in_order_app {W : Type} (xs ys : list (W -> W * option error)) (w : W) :
  run_in_order (xs ++ ys) w =
    ((run_in_order ys (run_in_order xs w).1).1,
     (run_in_order xs w).2 ++ (run_in_order ys (run_in_order xs w).1).2).
Proof.
  revert w. induction xs as [|f xs IH]; intros w; simpl.
  - by destruct (run_in_order ys w).
  - destruct (f w) as [w1 e]. rewrite IH.
    destruct (run_in_order xs w1) as [w2 es]. simpl.
    destruct (run_in_order ys w2) as [w3 es']. simpl.
    by destruct e.
Qed.

Lemma numbered_run {W : Type} (fs : list (W -> W * option error)) :
  forall (k : nat) (w : W) (seen : list nat),
    run_in_order (rev (imap (fun i => numbered (k + i)) fs)) (w, seen) =
      (((run_in_order (rev fs) w).1, seen ++ rev (seq k (length fs))),
       (run_in_order (rev fs) w).2).
Proof.
  induction fs as [|f fs IH] using rev_ind; intros k w seen.
  - simpl. by rewrite app_nil_r.
  - rewrite imap_app, !rev_app_distr. simpl.
    rewrite length_app, seq_app, rev_app_distr. simpl.
    unfold numbered at 1. simpl.
    destruct (f w) as [w1 e]. simpl.
    rewrite Nat.add_0_r.
    rewrite IH.
    destruct (run_in_order (rev fs) w1) as [w2 es]. simpl.
    by rewrite <- app_assoc.
Qed.

Lemma combine_errors_text (rest : list error) :
  forall acc : error,
    exists r, fold_left add_failure rest (Some acc) = Some r /\
      Error r = strings_Join (Error acc :: map Error rest) "; " /\
      root_cause r = root_cause acc.
Proof.
  induction rest as [|x rest IH]; intros acc.
  - exists acc. by simpl.
  - simpl. destruct (IH (Errorf_w_semicolon_v acc x)) as (r & Hr & Htext & Hroot).
    exists r. split; [done|]. split; [|done].
    rewrite Htext. simpl.
    destruct rest as [|y rest']; simpl.
    + reflexivity.
    + by rewrite !append_assoc.
Qed.

(** C1.  [Close] invokes the registered teardown actions [f1, ..., fn]
    one after the other in the order [fn, ..., f1], each exactly once
    and whatever the earlier ones returned: its final world and its
    error are those of that run; with every action made to note its
    number, the numbers noted are [n-1, ..., 0].  When no action fails
    the result is [nil]; otherwise it is one error whose text is the
    texts of all the failures, in the order they happened, joined by
    ["; "], and which unwraps to the first of them. *)
Theorem Close_invokes_all_in_reverse (c : ControlPlane) (w : World) :
  let fs := deferFuncs c in
  let outcome := run_in_order (rev fs) w in
  Close c w = (outcome.1, combine_errors outcome.2)
  /\ invoke_deferFuncs (imap numbered fs) (length fs) (w, []) None =
       ((outcome.1, rev (seq 0 (length fs))), (Close c w).2)
  /\ match (Close c w).2 with
     | None => outcome.2 = []
     | Some err =>
         Error err = strings_Join (map Error outcome.2) "; "
         /\ exists first, head outcome.2 = Some first
              /\ root_cause err = root_cause first
     end.
Proof.
  intros fs outcome.
  assert (HClose : Close c w = (outcome.1, combine_errors outcome.2)).
  { unfold Close. fold fs. rewrite invoke_deferFuncs_run by lia.
    by rewrite firstn_all. }
  split; [exact HClose|]. split.
  - rewrite HClose. simpl.
    pose proof (invoke_deferFuncs_run (imap numbered fs) (length fs) (w, []) None)
      as Hrun.
    rewrite length_imap in Hrun. specialize (Hrun ltac:(lia)).
    rewrite Hrun. clear Hrun.
    replace (take (length fs) (imap numbered fs)) with (imap numbered fs)
      by (symmetry; apply take_ge; rewrite length_imap; lia).
    pose proof (numbered_run fs 0 w []) as Hnum. simpl in Hnum.
    change (imap (fun i : nat => numbered i) fs) with (imap numbered fs) in Hnum.
    rewrite Hnum. reflexivity.
  - rewrite HClose. simpl. unfold combine_errors.
    destruct (outcome.2) as [|e rest] eqn:Hes.
    + reflexivity.
    + simpl. destruct (combine_errors_text rest e) as (r & Hr & Htext & Hroot).
      rewrite Hr. split; [exact Htext|]. exists e. by split.
Qed.

(* --------------------------------------------------------------------- *)
(** *** NewControlPlane: how a run decomposes *)
(* --------------------------------------------------------------------- *)

Lemma NewControlPlaneWith_Ok (declare : Dialer -> list DialerGroup)
  (fuel : nat) (routingA : string) (w w' : World) (c : ControlPlane) :
  NewControlPlaneWith declare fuel routingA w = Some (w', Ok c) ->
  exists w1 objs w2 epoch1,
    RemoveMemlock_answer (env w) = None
    /\ retry_load fuel w = Some (w1, Ok objs)
    /\ store_params w1 = (w2, Ok epoch1)
    /\ assemble declare routingA objs epoch1 w2 = (w', Ok c).
Proof.
  unfold NewControlPlaneWith. intros Hrun.
  destruct (RemoveMemlock_answer (env w)); [discriminate|].
  destruct (retry_load fuel w) as [[w1 [objs|err]]|]; try discriminate.
  destruct (store_params w1) as [w2 [epoch1|err]] eqn:Hparams; try discriminate.
  exists w1, objs, w2, epoch1. repeat split; congruence.
Qed.

Lemma NewControlPlaneWith_reaches_assemble (declare : Dialer -> list DialerGroup)
  (fuel : nat) (routingA : string) (w w1 w2 : World) (objs : bpfObjects)
  (epoch1 : Z) :
  RemoveMemlock_answer (env w) = None ->
  retry_load fuel w = Some (w1, Ok objs) ->
  store_params w1 = (w2, Ok epoch1) ->
  NewControlPlaneWith declare fuel routingA w =
    Some (assemble declare routingA objs epoch1 w2).
Proof.
  intros Hmem Hload Hparams. unfold NewControlPlaneWith.
  by rewrite Hmem, Hload, Hparams.
Qed.

Lemma assemble_Ok (declare : Dialer -> list DialerGroup) (routingA : string)
  (objs : bpfObjects) (epoch1 : Z) (w w' : World) (c : ControlPlane) :
  assemble declare routingA objs epoch1 w = (w', Ok c) ->
  exists rules final d name2id builder,
    compile_routing routingA = Ok (rules, final)
    /\ NewFromLink "socks5://localhost:1080" = Ok d
    /\ generate_outboundName2Id (declare d) = Ok name2id
    /\ build_matcher name2id objs rules final = Ok builder
    /\ w' = trace_routing rules final w
    /\ c = {| outbounds := declare d;
              outboundName2Id := name2id;
              bpf := objs;
              SimulatedLpmTries := builder_SimulatedLpmTries builder;
              SimulatedDomainSet := builder_SimulatedDomainSet builder;
              Final := final;
              dnsCache := ∅;
              epoch := epoch1;
              deferFuncs := [bpf_Close] |}.
Proof.
  unfold assemble. intros Hrun.
  destruct (compile_routing routingA) as [[rules final]|err] eqn:Hc;
    [|discriminate].
  destruct (NewFromLink _) as [d|err] eqn:Hd; [|discriminate].
  destruct (generate_outboundName2Id (declare d)) as [name2id|err] eqn:Hg;
    [|discriminate].
  destruct (build_matcher name2id objs rules final) as [builder|err] eqn:Hb;
    [|discriminate].
  exists rules, final, d, name2id, builder.
  inversion Hrun; subst. auto 10.
Qed.

Lemma assemble_Err (declare : Dialer -> list DialerGroup) (routingA : string)
  (objs : bpfObjects) (epoch1 : Z) (w : World) (err : error) :
  compile_routing routingA = Err err ->
  assemble declare routingA objs epoch1 w = (w, Err err).
Proof. unfold assemble. by intros ->. Qed.

Lemma compile_routing_pipeline (routingA : string) :
  match policy_pipeline routingA with
  | Ok compiled => compile_routing routingA = Ok compiled
  | Err e => exists pre, compile_routing routingA = Err (Errorf_w pre e)
  end.
Proof.
  unfold policy_pipeline, compile_routing.
  destruct (Parse routingA) as [[parsed final]|e]; [|by eexists].
  simpl.
  destruct (RefineFunctionParamKeyOptimizer parsed) as [r1|e]; [|by eexists].
  destruct (DatReaderOptimizer r1) as [r2|e]; [|by eexists].
  destruct (MergeAndSortRulesOptimizer r2) as [r3|e]; [|by eexists].
  destruct (DeduplicateParamsOptimizer r3) as [r4|e]; [|by eexists].
  reflexivity.
Qed.

(** C2.  A control plane that [NewControlPlane] returns carries the
    policy obtained by Parse, key refinement, external-data resolution,
    merge-and-sort and deduplication applied in that order: its [Final]
    and the rules its matcher was built from are the output of that
    chain.  When Parse or an optimizer fails, no run of
    [NewControlPlane] yields a control plane, and a run that gets as
    far as the policy returns that failure, wrapped. *)
Theorem NewControlPlane_policy_pipeline (fuel : nat) (routingA : string)
  (w : World) :
  (forall w' c,
      NewControlPlane fuel routingA w = Some (w', Ok c) ->
      exists rules builder,
        policy_pipeline routingA = Ok (rules, Final c)
        /\ build_matcher (outboundName2Id c) (bpf c) rules (Final c) = Ok builder
        /\ SimulatedLpmTries c = builder_SimulatedLpmTries builder
        /\ SimulatedDomainSet c = builder_SimulatedDomainSet builder)
  /\ (forall e,
         policy_pipeline routingA = Err e ->
         (forall w' r,
             NewControlPlane fuel routingA w = Some (w', r) ->
             exists e', r = Err e')
         /\ (forall w1 objs w2 epoch1,
                RemoveMemlock_answer (env w) = None ->
                retry_load fuel w = Some (w1, Ok objs) ->
                store_params w1 = (w2, Ok epoch1) ->
                exists pre,
                  NewControlPlane fuel routingA w =
                    Some (w2, Err (Errorf_w pre e)))).
Proof.
  split.
  - intros w' c Hrun.
    apply NewControlPlaneWith_Ok in Hrun
      as (w1 & objs & w2 & epoch1 & _ & _ & _ & Hasm).
    apply assemble_Ok in Hasm
      as (rules & final & d & name2id & builder & Hc & _ & _ & Hb & _ & ->).
    exists rules, builder. simpl.
    pose proof (compile_routing_pipeline routingA) as Hp.
    destruct (policy_pipeline routingA) as [compiled|e].
    + split; [congruence|]. by repeat split.
    + destruct Hp as [pre Hp]. congruence.
  - intros e He.
    pose proof (compile_routing_pipeline routingA) as Hp.
    rewrite He in Hp. destruct Hp as [pre Hp]. split.
    + intros w' [c|e'] Hrun; [|by eexists].
      apply NewControlPlaneWith_Ok in Hrun
        as (w1 & objs & w2 & epoch1 & _ & _ & _ & Hasm).
      rewrite (assemble_Err _ _ _ _ _ _ Hp) in Hasm. discriminate.
    + intros w1 objs w2 epoch1 Hmem Hload Hparams. exists pre.
      unfold NewControlPlane.
      rewrite (NewControlPlaneWith_reaches_assemble _ _ _ _ _ _ _ _
                 Hmem Hload Hparams).
      by rewrite (assemble_Err _ _ _ _ _ _ Hp).
Qed.

(* --------------------------------------------------------------------- *)
(** *** The outbound ids *)
(* --------------------------------------------------------------------- *)




Lemma uint8_small (z : Z) : 0 <= z < 256 -> uint8 z = z.
Proof. intros Hz. unfold uint8. by apply Z.mod_small. Qed.


Lemma generate_outboundName2Id_few (outbounds : list DialerGroup) :
  (length outbounds <= 255)%nat ->
  generate_outboundName2Id outbounds = Ok (fill_outboundName2Id 0 outbounds ∅).
Proof.
  intros Hlen. unfold generate_outboundName2Id.
  rewrite bool_decide_eq_false_2; [done|lia].
Qed.


(* --------------------------------------------------------------------- *)
(** *** The epoch *)
(* --------------------------------------------------------------------- *)

Lemma ParamMap_Update_Ok (key value : Z) (w w' : World) :
  ParamMap_Update key value w = (w', None) ->
  ParamMap w' = <[key := value]> (ParamMap w).
Proof.
  unfold ParamMap_Update.
  destruct (ParamMap_Update_answer (env w) key value); [discriminate|].
  by intros [= <-].
Qed.

Lemma retry_load_ParamMap (fuel : nat) :
  forall (w w' : World) (r : Result bpfObjects),
    retry_load fuel w = Some (w', r) -> ParamMap w' = ParamMap w.
Proof.
  induction fuel as [|fuel IH]; intros w w' r Hrun; simpl in Hrun; [discriminate|].
  destruct (loadBpfObjects_answer (env w) (loads w)) as [objs|err].
  - by inversion Hrun.
  - destruct (errors_Is err ErrMapIncompatible).
    + destruct (pinned_map_name (Error err)) as [mapName|].
      * by apply IH in Hrun.
      * by inversion Hrun.
    + by inversion Hrun.
Qed.

Lemma trace_routing_ParamMap (rules : list RoutingRule) (final : string)
  (w : World) :
  ParamMap (trace_routing rules final w) = ParamMap w.
Proof. unfold trace_routing. by destruct (TraceLevel_enabled (env w)). Qed.

Lemma store_params_Ok (w w' : World) (epoch1 : Z) :
  store_params w = (w', Ok epoch1) ->
  epoch1 =
    uint32
      (default 0
         (<[DisableL4RxChecksumKey := DisableL4ChecksumPolicy_SetZero]>
            (<[DisableL4TxChecksumKey := DisableL4ChecksumPolicy_SetZero]>
               (ParamMap w)) !! EpochKey) + 1)
  /\ ParamMap w' =
       <[EpochKey := epoch1]>
         (<[DisableL4RxChecksumKey := DisableL4ChecksumPolicy_SetZero]>
            (<[DisableL4TxChecksumKey := DisableL4ChecksumPolicy_SetZero]>
               (ParamMap w))).
Proof.
  unfold store_params. intros Hrun.
  destruct (ParamMap_Update DisableL4TxChecksumKey _ w) as [w1 [e1|]] eqn:H1;
    [discriminate|].
  destruct (ParamMap_Update DisableL4RxChecksumKey _ w1) as [w2 [e2|]] eqn:H2;
    [discriminate|].
  destruct (ParamMap_Update EpochKey _ w2) as [w3 [e3|]] eqn:H3;
    [discriminate|].
  inversion Hrun; subst.
  apply ParamMap_Update_Ok in H1, H2, H3.
  unfold ParamMap_Lookup in *. rewrite H2, H1 in *.
  split; [|exact H3].
  by destruct (_ !! EpochKey).
Qed.

(** C4, as amended.  A run of [NewControlPlane] that yields a control
    plane reads the epoch stored under [EpochKey] (0 when none is
    stored), adds one to it as a [uint32], that is modulo 2^32, writes
    the sum back under [EpochKey] and records it as the control
    plane's epoch: the stored epoch goes up by exactly one from any
    value below 2^32 - 1, and from 2^32 - 1 it goes to 0. *)
Theorem epoch_incremented_modulo (fuel : nat) (routingA : string)
  (w w' : World) (c : ControlPlane) :
  DisableL4TxChecksumKey <> EpochKey ->
  DisableL4RxChecksumKey <> EpochKey ->
  NewControlPlane fuel routingA w = Some (w', Ok c) ->
  let stored := default 0 (ParamMap w !! EpochKey) in
  ParamMap w' !! EpochKey = Some (uint32 (stored + 1))
  /\ epoch c = uint32 (stored + 1)
  /\ (0 <= stored < 2 ^ 32 - 1 -> epoch c = stored + 1)
  /\ (stored = 2 ^ 32 - 1 -> epoch c = 0).
Proof.
  intros Htx Hrx Hrun stored.
  apply NewControlPlaneWith_Ok in Hrun
    as (w1 & objs & w2 & epoch1 & _ & Hload & Hparams & Hasm).
  apply assemble_Ok in Hasm
    as (rules & final & d & name2id & builder & _ & _ & _ & _ & -> & ->).
  apply retry_load_ParamMap in Hload.
  apply store_params_Ok in Hparams as [Hepoch Hmap].
  rewrite Hload in Hepoch, Hmap.
  rewrite !lookup_insert_ne in Hepoch by done.
  fold stored in Hepoch. simpl.
  rewrite trace_routing_ParamMap, Hmap, lookup_insert_eq.
  split; [by rewrite Hepoch|]. split; [exact Hepoch|].
  rewrite Hepoch. unfold uint32. split.
  - intros Hrange. apply Z.mod_small. lia.
  - intros ->. reflexivity.
Qed.

(* --------------------------------------------------------------------- *)
(** *** The load loop *)
(* --------------------------------------------------------------------- *)


(** One pass through the label on an answer that names none. *)
Lemma retry_load_leave (fuel : nat) (w : World) :
  names_pinned_map (answer_from w 0) = None ->
  retry_load (S fuel) w = Some (set_loads (S (loads w)) w, settle (answer_from w 0)).
Proof.
  unfold names_pinned_map, settle, answer_from. rewrite Nat.add_0_r. intros Hname.
  simpl. destruct (loadBpfObjects_answer (env w) (loads w)) as [objs|err];
    [done|].
  destruct (errors_Is err ErrMapIncompatible); [|done].
  by rewrite Hname.
Qed.

Lemma answer_from_shift (w w3 : World) (j : nat) :
  env w3 = env w -> loads w3 = S (loads w) ->
  answer_from w3 j = answer_from w (S j).
Proof.
  intros Henv Hloads. unfold answer_from. rewrite Henv, Hloads.
  f_equal. lia.
Qed.




(* --------------------------------------------------------------------- *)
(** *** The two loops of ListenAndServe *)
(* --------------------------------------------------------------------- *)

Lemma accept_loop_app (ctx : nat) (xs ys : list (Result Conn)) :
  forall (w : World) (tasks : list Task),
    accept_loop ctx (xs ++ ys) w tasks =
      match accept_loop ctx xs w tasks with
      | (w', tasks', Running) => accept_loop ctx ys w' tasks'
      | stopped => stopped
      end.
Proof.
  induction xs as [|x xs IH]; intros w tasks; simpl; [done|].
  destruct (accept_pass ctx x w tasks) as [[w' tasks'] []]; [apply IH|done..].
Qed.

Lemma read_loop_app (ctx : nat)
  (xs ys : list (list byte * AddrPort * option error)) :
  forall (w : World) (tasks : list Task),
    read_loop ctx (xs ++ ys) w tasks =
      match read_loop ctx xs w tasks with
      | (w', tasks', Running) => read_loop ctx ys w' tasks'
      | stopped => stopped
      end.
Proof.
  induction xs as [|x xs IH]; intros w tasks; simpl; [done|].
  destruct (read_pass ctx x w tasks) as [[w' tasks'] []]; [apply IH|done..].
Qed.

Lemma set_log_same (w : World) : set_log (log w) w = w.
Proof. by destruct w. Qed.

(** C7.  In either loop, an accept or read error ends the loop at once
    (what the listener returns afterwards is never looked at, and no
    task is started for it) and cancels the context; the only trace it
    leaves is one error-level log line, and not even that when its
    text contains "use of closed network connection". *)
Theorem loops_end_on_error (ctx : nat) (err : error) (w w1 : World)
  (tasks tasks1 : list Task) :
  (forall before rest,
      accept_loop ctx before w tasks = (w1, tasks1, Running) ->
      exists w2,
        accept_loop ctx (before ++ Err err :: rest) w tasks = (w2, tasks1, Exited)
        /\ w2 = cancel ctx (set_log (log w1 ++ error_line "Error when accept: " err) w1)
        /\ log w2 = log w1 ++ error_line "Error when accept: " err)
  /\ (forall before pkt lAddrPort rest,
         read_loop ctx before w tasks = (w1, tasks1, Running) ->
         exists w2,
           read_loop ctx (before ++ (pkt, lAddrPort, Some err) :: rest) w tasks
             = (w2, tasks1, Exited)
           /\ w2 = cancel ctx
                     (set_log
                        (log w1 ++
                           error_line
                             ("ReadFromUDPAddrPort: " +:+ AddrPort_String lAddrPort
                                +:+ ", ") err) w1)
           /\ log w2 =
                log w1 ++
                  error_line
                    ("ReadFromUDPAddrPort: " +:+ AddrPort_String lAddrPort +:+ ", ")
                    err).
Proof.
  split.
  - intros before rest Hbefore. rewrite accept_loop_app, Hbefore. simpl.
    eexists. split; [reflexivity|]. unfold error_line.
    destruct (strings_Contains (Error err) closed_network_connection); simpl.
    + rewrite app_nil_r, set_log_same. by split.
    + by split.
  - intros before pkt lAddrPort rest Hbefore.
    rewrite read_loop_app, Hbefore. simpl.
    eexists. split; [reflexivity|]. unfold error_line.
    destruct (strings_Contains (Error err) closed_network_connection); simpl.
    + rewrite app_nil_r, set_log_same. by split.
    + rewrite !append_assoc. by split.
Qed.

(** C8.  On any run of received packets whose parsed offsets lie within
    the packet, the datagram loop is still running at the end: for
    each packet whose header does not parse it has logged one warning
    and started nothing, and for each packet whose header parses it has
    started [handlePkt] on the bytes from the parsed offset on, in the
    order received. *)
Theorem datagram_loop_drops_malformed (ctx : nat)
  (pkts : list (list byte * AddrPort)) :
  forall (w : World) (tasks : list Task),
    (forall pkt lAddrPort addrHdr dataOffset,
        (pkt, lAddrPort) ∈ pkts ->
        ParseAddrHdr pkt = Ok (addrHdr, dataOffset) ->
        0 <= dataOffset <= Z.of_nat (length pkt)) ->
    read_loop ctx (map (fun p => (p.1, p.2, None)) pkts) w tasks =
      (set_log (log w ++ omap (fun p => warned p.1) pkts) w,
       tasks ++ omap (fun p => handed_over p.1 p.2) pkts,
       Running).
Proof.
  induction pkts as [|[pkt lAddrPort] pkts IH]; intros w tasks Hoffsets.
  - simpl. by rewrite !app_nil_r, set_log_same.
  - simpl. unfold warned at 1, handed_over at 1. simpl.
    destruct (ParseAddrHdr pkt) as [[addrHdr dataOffset]|e] eqn:Hparse.
    + pose proof (Hoffsets pkt lAddrPort addrHdr dataOffset
                    ltac:(apply elem_of_cons; by left) Hparse) as Hoff.
      rewrite orb_false_intro by lia.
      rewrite IH by (intros; eapply Hoffsets; [by apply elem_of_cons; right|done]).
      by rewrite <- app_assoc.
    + rewrite IH by (intros; eapply Hoffsets; [by apply elem_of_cons; right|done]).
      simpl. by rewrite <- app_assoc.
Qed.

(* --------------------------------------------------------------------- *)
(** *** BindLink: the address record *)
(* --------------------------------------------------------------------- *)

(** The loop started on a record [acc]: a family already present keeps
    its address, a family absent gets the first eligible address of
    the list. *)
Lemma scan_ipnets_spec (ipnets : list (list byte)) :
  forall acc : bpfIfIp,
    scan_ipnets ipnets acc =
      {| Ip4 := if HasIp4 acc then Ip4 acc
                else from_option stored_form (Ip4 acc) (first_eligible Is4 ipnets);
         Ip6 := if HasIp6 acc then Ip6 acc
                else from_option stored_form (Ip6 acc) (first_eligible Is6 ipnets);
         HasIp4 := HasIp4 acc || bool_decide (is_Some (first_eligible Is4 ipnets));
         HasIp6 := HasIp6 acc || bool_decide (is_Some (first_eligible Is6 ipnets)) |}.
Proof.
  induction ipnets as [|ipnet rest IH]; intros [ip4 ip6 has4 has6].
  - simpl. by destruct has4, has6.
  - simpl. unfold eligible.
    destruct (AddrFromSlice ipnet) as [[b|b]|]; simpl;
      [destruct (IsLinkLocalUnicast (Addr4 b) || IsLinkLocalMulticast (Addr4 b))
      |destruct (IsLinkLocalUnicast (Addr6 b) || IsLinkLocalMulticast (Addr6 b))
      |]; simpl; rewrite ?andb_false_r; simpl;
      destruct has4, has6; simpl; rewrite ?IH; simpl;
      rewrite ?bool_decide_eq_true_2 by (by eexists); try reflexivity;
      unfold stored_form; simpl;
      repeat match goal with
        | |- context [first_eligible ?f rest] =>
            destruct (first_eligible f rest); simpl
        end;
      rewrite ?bool_decide_eq_true_2 by (by eexists);
      rewrite ?bool_decide_eq_false_2 by (by intros [? ?]);
      reflexivity.
Qed.

Lemma first_eligible_As16 (family : Addr -> bool) (ipnets : list (list byte))
  (ip : Addr) :
  first_eligible family ipnets = Some ip -> length (As16 ip) = 16%nat.
Proof.
  induction ipnets as [|ipnet rest IH]; simpl; [done|].
  unfold AddrFromSlice.
  case_bool_decide as H4; [|case_bool_decide as H16]; simpl.
  - destruct (eligible (Addr4 ipnet) && family (Addr4 ipnet)); [|exact IH].
    intros [= <-]. simpl. by rewrite H4.
  - destruct (eligible (Addr6 ipnet) && family (Addr6 ipnet)); [|exact IH].
    by intros [= <-].
  - exact IH.
Qed.

Lemma netlink_IfindexIpMap (call : NetlinkCall) (w : World) :
  IfindexIpMap (netlink call w).1 = IfindexIpMap w.
Proof. reflexivity. Qed.

Lemma add_qdisc_IfindexIpMap (qdisc : GenericQdisc) (w : World) :
  IfindexIpMap (add_qdisc qdisc w).1 = IfindexIpMap w.
Proof.
  unfold add_qdisc. simpl.
  destruct (netlink_answer (env w) (netlink_calls w) (QdiscAdd qdisc)) as [err|];
    [|done].
  destruct (os_IsExist err); simpl.
  - by destruct (netlink_answer _ _ _).
  - done.
Qed.

Lemma install_hooks_IfindexIpMap (c : ControlPlane) (index : Z) (w : World) :
  IfindexIpMap (install_hooks c index w).1.1 = IfindexIpMap w.
Proof.
  unfold install_hooks.
  pose proof (add_qdisc_IfindexIpMap (clsact_qdisc index) w) as Hq.
  destruct (add_qdisc (clsact_qdisc index) w) as [w1 [err|]]; simpl in *;
    [done|].
  destruct (netlink_answer (env w1) (netlink_calls w1) _); simpl; [done|].
  by destruct (netlink_answer _ _ _).
Qed.

(** C9.  The record [BindLink] computes from the address list of the
    interface has, for IPv4 and for IPv6 alike, one slot and one flag:
    the flag is set exactly when the list has an eligible address of
    that family, and the slot then holds the first such address in
    list order, in its 16-byte form; a family without eligible address
    has its flag unset and its slot zero.  That record is what
    [BindLink] writes under the interface index when the list is not
    empty and the map accepts the write. *)
Theorem BindLink_address_record (ipnets : list (list byte)) :
  let linkIp := scan_ipnets ipnets bpfIfIp_zero in
  match first_eligible Is4 ipnets with
  | Some ip =>
      HasIp4 linkIp = true /\ Ip4 linkIp = stored_form ip
      /\ length (As16 ip) = 16%nat
  | None => HasIp4 linkIp = false /\ Ip4 linkIp = [0; 0; 0; 0]
  end
  /\ match first_eligible Is6 ipnets with
     | Some ip =>
         HasIp6 linkIp = true /\ Ip6 linkIp = stored_form ip
         /\ length (As16 ip) = 16%nat
     | None => HasIp6 linkIp = false /\ Ip6 linkIp = [0; 0; 0; 0]
     end
  /\ forall c ifname w index,
       LinkByName_answer (env w) ifname = Ok index ->
       AddrList_answer (env w) index = Ok ipnets ->
       ipnets <> [] ->
       IfindexIpMap_Update_answer (env w) (uint32 index) linkIp = None ->
       IfindexIpMap (BindLink c ifname w).1.1 =
         <[uint32 index := linkIp]> (IfindexIpMap w).
Proof.
  intros linkIp. split; [|split].
  - unfold linkIp. rewrite scan_ipnets_spec. simpl.
    destruct (first_eligible Is4 ipnets) as [ip|] eqn:H4; simpl.
    + repeat split. by apply first_eligible_As16 in H4.
    + done.
  - unfold linkIp. rewrite scan_ipnets_spec. simpl.
    destruct (first_eligible Is6 ipnets) as [ip|] eqn:H6; simpl.
    + repeat split. by apply first_eligible_As16 in H6.
    + done.
  - intros c ifname w index Hlink Haddrs Hne Hupdate. unfold linkIp in *.
    unfold BindLink. rewrite Hlink, Haddrs.
    rewrite bool_decide_eq_false_2 by (by destruct ipnets).
    unfold IfindexIpMap_Update. rewrite Hupdate.
    by rewrite install_hooks_IfindexIpMap.
Qed.

(* --------------------------------------------------------------------- *)
(** *** BindLink: the teardown actions *)
(* --------------------------------------------------------------------- *)

Lemma install_hooks_deferFuncs (c c' : ControlPlane) (index : Z) (w w' : World) :
  install_hooks c index w = (w', c', None) ->
  deferFuncs c' =
    deferFuncs c ++
      [netlink (QdiscDel (clsact_qdisc index));
       netlink (FilterDel (ingress_filter c index));
       netlink (FilterDel (ingress_filter c index))]
  /\ exists before,
       netlink_calls w' =
         before ++ [FilterAdd (ingress_filter c index);
                    FilterAdd (egress_filter c index)].
Proof.
  unfold install_hooks.
  destruct (add_qdisc (clsact_qdisc index) w) as [w1 [err|]]; [discriminate|].
  simpl.
  destruct (netlink_answer (env w1) (netlink_calls w1) _) as [err|];
    [discriminate|].
  destruct (netlink_answer _ _ _) as [err|]; [discriminate|].
  intros [= <- <-]. simpl. split.
  - by rewrite <- !app_assoc.
  - exists (netlink_calls w1). by rewrite <- app_assoc.
Qed.

Lemma BindLink_deferFuncs (c c' : ControlPlane) (ifname : string) (w w' : World) :
  BindLink c ifname w = (w', c', None) ->
  exists index,
    LinkByName_answer (env w) ifname = Ok index
    /\ deferFuncs c' =
         deferFuncs c ++
           [netlink (QdiscDel (clsact_qdisc index));
            netlink (FilterDel (ingress_filter c index));
            netlink (FilterDel (ingress_filter c index))]
    /\ exists before,
         netlink_calls w' =
           before ++ [FilterAdd (ingress_filter c index);
                      FilterAdd (egress_filter c index)].
Proof.
  unfold BindLink.
  destruct (LinkByName_answer (env w) ifname) as [index|err]; [|discriminate].
  destruct (AddrList_answer (env w) index) as [ipnets|err]; [|discriminate].
  case_bool_decide; [discriminate|].
  destruct (IfindexIpMap_Update _ _ w) as [w1 [err|]]; [discriminate|].
  intros Hhooks. exists index. split; [done|].
  by apply install_hooks_deferFuncs in Hhooks.
Qed.

(* --------------------------------------------------------------------- *)
(** *** ListenAndServe: what the caller gets back *)
(* --------------------------------------------------------------------- *)

Lemma Done_cancel (ctx : nat) (w : World) :
  (ctx < length (ctx_done w))%nat -> Done ctx (cancel ctx w) = true.
Proof.
  intros Hlt. unfold Done, cancel. simpl.
  by rewrite list_lookup_insert_eq.
Qed.



Lemma run_in_order_keeps (calls : list (World -> World * option error)) :
  Forall keeps_contexts calls ->
  forall w,
    length (ctx_done (run_in_order calls w).1) = length (ctx_done w)
    /\ forall ctx, Done ctx w = true -> Done ctx (run_in_order calls w).1 = true.
Proof.
  induction 1 as [|f calls Hf _ IH]; intros w; simpl; [done|].
  destruct (Hf w) as [Hlen Hdone].
  destruct (f w) as [w1 e]. simpl in *.
  destruct (IH w1) as [Hlen' Hdone'].
  destruct (run_in_order calls w1) as [w2 es]. simpl in *.
  split; [congruence|]. intros ctx Hctx. by apply Hdone', Hdone.
Qed.


Lemma Close_cancels (c : ControlPlane) (ctx : nat) (w : World) :
  Forall keeps_contexts (deferFuncs c) ->
  (ctx < length (ctx_done w))%nat ->
  Done ctx (Close (append_deferFunc (fun w => (cancel ctx w, None)) c) w).1 = true.
Proof.
  intros Hall Hlt. unfold Close. rewrite invoke_deferFuncs_run by lia.
  rewrite firstn_all. simpl. rewrite rev_app_distr. simpl.
  pose proof (run_in_order_keeps (rev (deferFuncs c))
                ltac:(by apply Forall_rev) (cancel ctx w)) as [_ Hdone].
  destruct (run_in_order (rev (deferFuncs c)) (cancel ctx w)) as [w2 es].
  simpl in *. by apply Hdone, Done_cancel.
Qed.



Lemma ListenAndServe_start_serving (c c1 : ControlPlane) (port : Z)
  (w w0 : World) (s0 : Serving) :
  ListenAndServe_start c port w = (w0, c1, inr s0) ->
  exists w1,
    ParamMap_Update BigEndianTproxyPortKey (uint32 (swap16 port)) w = (w1, None)
    /\ w0 = (WithCancel w1).1
    /\ c1 = append_deferFunc
              (fun w => (cancel (length (ctx_done w1)) w, None)) c
    /\ s0 = {| sv_world := w0; sv_ctx := length (ctx_done w1); sv_tasks := [];
               sv_tcp := Running; sv_udp := Running;
               listener_closed := false; lConn_closed := false;
               sv_returned := None |}.
Proof.
  unfold ListenAndServe_start.
  destruct (Listen_answer (env w) port); [discriminate|].
  destruct (ListenUDP_answer (env w) port); [discriminate|].
  destruct (ParamMap_Update _ _ w) as [w1 [err|]]; [discriminate|].
  simpl. intros [= <- <- <-]. by exists w1.
Qed.




End Properties.

(* ===================================================================== *)
(** ** The properties on the concrete machine *)
(* ===================================================================== *)

Section Scenarios.
#[local] Existing Instance sample.

Lemma succeeded_yield (run : option (World * Result ControlPlane))
  (otherwise : World) :
  succeeded run = true ->
  run = Some ((yield run otherwise).1, Ok (yield run otherwise).2).
Proof. by destruct run as [[w [c|e]]|]. Qed.

Lemma sample_started_run :
  NewControlPlane 1 sample_routingA sample_world =
    Some (sample_started.1, Ok sample_started.2).
Proof. apply succeeded_yield. vm_compute. reflexivity. Qed.

Lemma last_epoch_started_run :
  NewControlPlane 1 sample_routingA last_epoch_world =
    Some (last_epoch_started.1, Ok last_epoch_started.2).
Proof. apply succeeded_yield. vm_compute. reflexivity. Qed.

(** Resources acquired in the order A, B, C are released in the order
    C, B, A; B's failure does not keep A from being released, and the
    error returned mentions both failures. *)
Example Close_three_releases :
  log (Close three_releases sample_world).1 =
    [(TraceLevel, "C"); (TraceLevel, "B"); (TraceLevel, "A")]
  /\ Error <$> (Close three_releases sample_world).2 = Some "B is gone; A is busy".
Proof. split; vm_compute; reflexivity. Qed.

(** C2 on the sample machine: a policy that compiles, and one whose
    external data is missing. *)
Lemma NewControlPlane_policy_pipeline_witness :
  (exists rules builder,
      policy_pipeline sample_routingA = Ok (rules, Final sample_started.2)
      /\ build_matcher (outboundName2Id sample_started.2) (bpf sample_started.2)
           rules (Final sample_started.2) = Ok builder)
  /\ (exists w2 pre,
         NewControlPlane 1 "missing.dat" sample_world =
           Some (w2, Err (Errorf_w pre (errorString "missing.dat: not found")))).
Proof.
  split.
  - destruct (proj1 (NewControlPlane_policy_pipeline 1 sample_routingA sample_world)
                _ _ sample_started_run) as (rules & builder & Hp & Hb & _).
    by exists rules, builder.
  - destruct (proj2 (NewControlPlane_policy_pipeline 1 "missing.dat" sample_world)
                (errorString "missing.dat: not found") eq_refl) as [_ Hret].
    destruct (Hret (set_loads 1 sample_world) (7, 8)
                (store_params (set_loads 1 sample_world)).1 42
                eq_refl eq_refl eq_refl) as [pre Hrun].
    by eexists _, pre.
Defined.


(** C4 as claimed fails where the stored epoch is 2^32 - 1: the
    constructor succeeds, and the epoch it stores and records is 0,
    not 2^32. *)
Lemma epoch_wraps_at_uint32_max :
  NewControlPlane 1 sample_routingA last_epoch_world =
    Some (last_epoch_started.1, Ok last_epoch_started.2)
  /\ ParamMap last_epoch_world !! EpochKey = Some 4294967295
  /\ ParamMap last_epoch_started.1 !! EpochKey = Some 0
  /\ epoch last_epoch_started.2 = 0.
Proof.
  split; [exact last_epoch_started_run|].
  repeat split; vm_compute; reflexivity.
Qed.

(** C4 as amended on the sample machine: 41 becomes 42. *)
Lemma epoch_incremented_modulo_witness :
  ParamMap sample_world !! EpochKey = Some 41
  /\ ParamMap sample_started.1 !! EpochKey = Some 42
  /\ epoch sample_started.2 = 42.
Proof.
  destruct (epoch_incremented_modulo 1 sample_routingA sample_world
              sample_started.1 sample_started.2)
    as (Hstored & Hepoch & _); [done|done|exact sample_started_run|].
  split; [reflexivity|]. split; [exact Hstored|exact Hepoch].
Defined.

(** C5 on the sample machine, where every netlink request succeeds:
    [BindLink] installs the qdisc, the ingress filter and the egress
    filter, and the [Close] that follows asks for the ingress filter
    to be deleted twice and for the egress filter never. *)
Lemma BindLink_egress_filter_never_released :
  sample_bound.2 = None
  /\ netlink_calls (Close sample_bound.1.2 sample_bound.1.1).1 =
       [ QdiscAdd (clsact_qdisc 2);
         FilterAdd (ingress_filter sample_started.2 2);
         FilterAdd (egress_filter sample_started.2 2);
         FilterDel (ingress_filter sample_started.2 2);
         FilterDel (ingress_filter sample_started.2 2);
         QdiscDel (clsact_qdisc 2) ]
  /\ FilterDel (egress_filter sample_started.2 2)
       ∉ netlink_calls (Close sample_bound.1.2 sample_bound.1.1).1.
Proof.
  assert (Hcalls :
    netlink_calls (Close sample_bound.1.2 sample_bound.1.1).1 =
       [ QdiscAdd (clsact_qdisc 2);
         FilterAdd (ingress_filter sample_started.2 2);
         FilterAdd (egress_filter sample_started.2 2);
         FilterDel (ingress_filter sample_started.2 2);
         FilterDel (ingress_filter sample_started.2 2);
         QdiscDel (clsact_qdisc 2) ]) by (vm_compute; reflexivity).
  split; [vm_compute; reflexivity|]. split; [exact Hcalls|].
  rewrite Hcalls. intros Hin.
  repeat (apply elem_of_cons in Hin as [Hin|Hin]; [discriminate Hin|]).
  by apply elem_of_nil in Hin.
Qed.



Lemma loop_still_running (r : World * list Task * Loop) :
  r.2 = Running -> r = (r.1.1, r.1.2, Running).
Proof. destruct r as [[w tasks] l]. simpl. by intros ->. Qed.

(** C7 on the sample machine: the stream loop meets a genuine failure
    after two connections and logs it; the datagram loop meets the
    closed listener after three datagrams and logs nothing for it; both
    have left their loop, and what came next was not looked at. *)
Lemma loops_end_on_error_witness :
  accept_loop 0 (sample_accepted ++ Err too_many_open_files :: [Ok (A := @Conn sample) 3%nat])
    (sv_world sample_serving) []
    = (cancel 0
         (set_log
            [(ErrorLevel,
              "Error when accept: accept tcp 0.0.0.0:12345: accept4: too many open files")]
            (sv_world sample_serving)),
       [handleConn (H := sample) 1%nat; handleConn (H := sample) 2%nat], Exited)
  /\ exists w2,
       read_loop 0
         (map (fun p => (p.1, p.2, None)) sample_datagrams
            ++ ([], "", Some listener_is_closed) :: [([x04], "", None)])
         (sv_world sample_serving) []
         = (w2, [handlePkt (H := sample) [x68; x69] "192.168.1.7:40000"
                   ([x0a; x00; x00; x01], [x00; x35])], Exited)
       /\ log w2 = [(WarnLevel, "No AddrPort presented");
                    (WarnLevel, "No AddrPort presented")].
Proof.
  split.
  - destruct (proj1 (loops_end_on_error 0 too_many_open_files
                       (sv_world sample_serving) (sv_world sample_serving)
                       [] [handleConn (H := sample) 1%nat; handleConn (H := sample) 2%nat])
                sample_accepted [Ok (A := @Conn sample) 3%nat] eq_refl) as (w2 & Hrun & -> & _).
    exact Hrun.
  - set (before := read_loop 0 (map (fun p => (p.1, p.2, None)) sample_datagrams)
                     (sv_world sample_serving) []).
    assert (Hbefore : before = (before.1.1, before.1.2, Running)).
    { apply loop_still_running. vm_compute. reflexivity. }
    destruct (proj2 (loops_end_on_error 0 listener_is_closed
                       (sv_world sample_serving) before.1.1 [] before.1.2)
                _ [] "" [([x04], "", None)] Hbefore) as (w2 & Hrun & _ & Hlog).
    exists w2. split.
    + etrans; [exact Hrun|]. reflexivity.
    + rewrite Hlog. vm_compute. reflexivity.
Defined.

(** C8 on the sample machine: of three datagrams the first is handed
    over without its seven header bytes, the other two are dropped
    with a warning each, and the loop goes on. *)
Lemma datagram_loop_drops_malformed_witness :
  read_loop 0 (map (fun p => (p.1, p.2, None)) sample_datagrams)
    (sv_world sample_serving) []
  = (set_log
       [(WarnLevel, "No AddrPort presented"); (WarnLevel, "No AddrPort presented")]
       (sv_world sample_serving),
     [handlePkt (H := sample) [x68; x69] "192.168.1.7:40000" ([x0a; x00; x00; x01], [x00; x35])],
     Running).
Proof.
  rewrite (datagram_loop_drops_malformed 0 sample_datagrams).
  - reflexivity.
  - intros pkt lAddrPort addrHdr dataOffset Hin Hparse.
    unfold sample_datagrams in Hin.
    repeat (apply elem_of_cons in Hin as [Hin|Hin];
            [injection Hin as -> ->; vm_compute in Hparse;
             first [discriminate Hparse
                   |injection Hparse as <- <-; simpl; lia]|]).
    by apply elem_of_nil in Hin.
Defined.

(** C9 on the sample machine: of fe80::1, 192.168.1.10, 10.0.0.5 and
    2001:db8::1 the record keeps 192.168.1.10 and 2001:db8::1, and
    that record is what lands under index 2. *)
Lemma BindLink_address_record_witness :
  first_eligible Is4 sample_ipnets = Some (Addr4 [xc0; xa8; x01; x0a])
  /\ HasIp4 (scan_ipnets sample_ipnets bpfIfIp_zero) = true
  /\ Ip4 (scan_ipnets sample_ipnets bpfIfIp_zero) = [0; 0; 4294901760; 167880896]
  /\ HasIp6 (scan_ipnets sample_ipnets bpfIfIp_zero) = true
  /\ IfindexIpMap sample_bound.1.1 !! 2 =
       Some (scan_ipnets sample_ipnets bpfIfIp_zero).
Proof.
  assert (E4 : first_eligible Is4 sample_ipnets = Some (Addr4 [xc0; xa8; x01; x0a]))
    by (vm_compute; reflexivity).
  assert (E6 : first_eligible Is6 sample_ipnets =
               Some (Addr6 [x20; x01; x0d; xb8; x00; x00; x00; x00;
                            x00; x00; x00; x00; x00; x00; x00; x01]))
    by (vm_compute; reflexivity).
  destruct (BindLink_address_record sample_ipnets) as (H4 & H6 & Hwrite).
  rewrite E4 in H4. rewrite E6 in H6.
  destruct H4 as (Hhas4 & Hip4 & _). destruct H6 as (Hhas6 & _).
  split; [exact E4|]. split; [exact Hhas4|].
  split; [rewrite Hip4; vm_compute; reflexivity|]. split; [exact Hhas6|].
  unfold sample_bound.
  rewrite (Hwrite sample_started.2 "eth0" sample_started.1 2);
    [apply lookup_insert_eq|reflexivity|reflexivity|discriminate|reflexivity].
Defined.

Lemma started_serving (x : World * ControlPlane * (error + Serving)) :
  match x.2 with inr _ => true | inl _ => false end = true ->
  x = (x.1.1, x.1.2, inr (serving_of x.2)).
Proof. by destruct x as [[w c] [e|s]]. Qed.

#[local] Abbreviation listening :=
  (ListenAndServe_start sample_bound.1.2 12345 sample_bound.1.1).




End Scenarios.

(* ===================================================================== *)
(** ** Further properties: vocabulary *)
(* ===================================================================== *)

(** [sub] stands in [s] at position [i]. *)
Definition occurs_at (sub s : string) (i : nat) : Prop :=
  substring i (String.length sub) s = sub.

(** Whether [s] has a colon. *)
Fixpoint has_colon (s : string) : bool :=
  match s with
  | EmptyString => false
  | String c rest => Ascii.eqb c ":"%char || has_colon rest
  end.

(** The phrase [retry_load] looks for in the loader's error. *)
Definition use_pinned_map : string := "use pinned map ".

(** The warning [retry_load] logs for a pinned map it has removed. *)
Definition removal_warning (mapName : string) : Level * string :=
  (WarnLevel,
   "New map format was incompatible with existing map "
     +:+ mapName +:+ ", and the old one was removed.").

(** The index, counted from [i] for the head, of the last outbound of
    the list that bears [name]. *)
Fixpoint last_index_from `{Collaborators} (i : nat) (name : string)
  (outbounds : list DialerGroup) : option nat :=
  match outbounds with
  | [] => None
  | o :: rest =>
      match last_index_from (S i) name rest with
      | Some j => Some j
      | None => if String.eqb (Name o) name then Some i else None
      end
  end.

Lemma append_cons (c : ascii) (s t : string) :
  String c s +:+ t = String c (s +:+ t).
Proof. reflexivity. Qed.

Lemma append_empty_l (t : string) : "" +:+ t = t.
Proof. reflexivity. Qed.

Lemma substring_0_app (b c : string) :
  substring 0 (String.length b) (b +:+ c) = b.
Proof.
  induction b as [|x b IH].
  - rewrite append_empty_l. simpl. by destruct c.
  - rewrite append_cons. simpl. by rewrite IH.
Qed.

Lemma substring_app (a b c : string) :
  substring (String.length a) (String.length b) (a +:+ b +:+ c) = b.
Proof.
  induction a as [|x a IH].
  - rewrite append_empty_l. apply substring_0_app.
  - rewrite append_cons. simpl. exact IH.
Qed.

Lemma string_from_app (a b : string) (n : nat) :
  string_from (String.length a + n) (a +:+ b) = string_from n b.
Proof.
  induction a as [|x a IH].
  - by rewrite append_empty_l.
  - rewrite append_cons. simpl. exact IH.
Qed.

Lemma before_colon_split (s : string) :
  exists tail,
    s = before_colon s +:+ tail
    /\ has_colon (before_colon s) = false
    /\ (tail = "" \/ exists rest, tail = String ":" rest).
Proof.
  induction s as [|c s (tail & Hs & Hno & Htail)].
  - exists "". split; [done|]. split; [done|]. by left.
  - simpl. destruct (Ascii.eqb c ":"%char) eqn:Hc.
    + apply Ascii.eqb_eq in Hc as ->. exists (String ":" s).
      split; [done|]. split; [done|]. right. by eexists.
    + exists tail. rewrite append_cons, <- Hs. simpl. rewrite Hc, Hno.
      by repeat split.
Qed.

Lemma before_colon_app (name rest : string) :
  has_colon name = false ->
  before_colon (name +:+ String ":" rest) = name.
Proof.
  induction name as [|c name IH]; intros Hno.
  - reflexivity.
  - simpl in Hno. apply orb_false_elim in Hno as [Hc Hno].
    rewrite append_cons. simpl. rewrite Hc. by rewrite IH.
Qed.

(** [strings.Index] finds the first occurrence, and finds one when there
    is one. *)
Lemma strings_Index_first (s sub : string) (i : nat) :
  sub <> "" ->
  occurs_at sub s i ->
  (forall p, (p < i)%nat -> ~ occurs_at sub s p) ->
  strings_Index s sub = Some i.
Proof.
  intros Hsub Hat Hbefore. unfold strings_Index.
  destruct (index 0 sub s) as [m|] eqn:Hindex.
  - f_equal.
    destruct (Nat.lt_trichotomy m i) as [Hlt|[Heq|Hgt]]; [|done|].
    + destruct (Hbefore m Hlt). by eapply index_correct1.
    + by destruct (index_correct2 _ _ _ _ Hindex i ltac:(lia) Hgt).
  - by destruct (index_correct3 0 i _ _ Hindex Hsub ltac:(lia)).
Qed.

(* ===================================================================== *)
(** ** Further properties *)
(* ===================================================================== *)

(** X1.  The map name [retry_load] takes out of an error text is the
    text between the first occurrence of "use pinned map " and the next
    colon (or the end of the text), and has no colon itself; no name is
    found exactly when the phrase occurs nowhere in the text. *)
Theorem pinned_map_name_between (msg : string) :
  match pinned_map_name msg with
  | Some name =>
      exists i tail,
        occurs_at use_pinned_map msg i
        /\ (forall p, (p < i)%nat -> ~ occurs_at use_pinned_map msg p)
        /\ string_from (i + String.length use_pinned_map) msg = name +:+ tail
        /\ has_colon name = false
        /\ (tail = "" \/ exists rest, tail = String ":" rest)
  | None => forall i, ~ occurs_at use_pinned_map msg i
  end.
Proof.
  unfold pinned_map_name, strings_Index. fold use_pinned_map.
  destruct (index 0 use_pinned_map msg) as [i|] eqn:Hindex.
  - destruct (before_colon_split
                (string_from (i + String.length use_pinned_map) msg))
      as (tail & Hsplit & Hno & Htail).
    exists i, tail. split; [by eapply index_correct1|]. split.
    + intros p Hp. by eapply index_correct2; [exact Hindex|lia|].
    + by repeat split.
  - intros i. by eapply index_correct3; [exact Hindex| |lia].
Qed.

(** X2.  A text that says "use pinned map NAME:" for the first time
    after [pre], NAME having no colon, yields NAME. *)
Theorem pinned_map_name_round_trip (pre name rest : string) :
  has_colon name = false ->
  (forall p, (p < String.length pre)%nat ->
     ~ occurs_at use_pinned_map
         (pre +:+ use_pinned_map +:+ name +:+ String ":" rest) p) ->
  pinned_map_name (pre +:+ use_pinned_map +:+ name +:+ String ":" rest)
    = Some name.
Proof.
  intros Hno Hfirst. unfold pinned_map_name. fold use_pinned_map.
  rewrite (strings_Index_first _ _ (String.length pre)); [|done| |done].
  - f_equal. rewrite string_from_app.
    rewrite <- (Nat.add_0_r (String.length use_pinned_map)), string_from_app.
    simpl. by apply before_colon_app.
  - unfold occurs_at. apply substring_app.
Qed.

(** X2 on the text the loader gives for the parameter map. *)
Lemma pinned_map_name_round_trip_witness :
  pinned_map_name
    "field ParamMap: use pinned map param_map: map spec is incompatible"
    = Some "param_map".
Proof.
  apply (pinned_map_name_round_trip "field ParamMap: " "param_map"
           " map spec is incompatible").
  - reflexivity.
  - intros p Hp. unfold occurs_at.
    do 16 (destruct p as [|p]; [vm_compute; discriminate|]).
    simpl in Hp. lia.
Defined.

(** A netlink request about a filter, as opposed to the qdisc. *)
Definition is_filter_call (call : NetlinkCall) : bool :=
  match call with
  | FilterAdd _ | FilterDel _ => true
  | QdiscAdd _ | QdiscDel _ => false
  end.

(** Two worlds that differ at most in what the constructor works on:
    the load count, the removed paths, the log and the parameter map. *)
Definition same_outside_constructor `{Collaborators} (w w' : World) : Prop :=
  env w' = env w
  /\ bpf_closed w' = bpf_closed w
  /\ IfindexIpMap w' = IfindexIpMap w
  /\ netlink_calls w' = netlink_calls w
  /\ ctx_done w' = ctx_done w.

Section Further.
Context `{Collaborators}.

(* --------------------------------------------------------------------- *)
(** *** NewControlPlane: what it leaves alone, what it leaves behind *)
(* --------------------------------------------------------------------- *)

Lemma same_outside_constructor_refl (w : World) : same_outside_constructor w w.
Proof. by repeat split. Qed.

Lemma same_outside_constructor_trans (w1 w2 w3 : World) :
  same_outside_constructor w1 w2 -> same_outside_constructor w2 w3 ->
  same_outside_constructor w1 w3.
Proof.
  intros (? & ? & ? & ? & ?) (? & ? & ? & ? & ?).
  repeat split; congruence.
Qed.

Lemma retry_load_outside (fuel : nat) :
  forall (w w' : World) (r : Result bpfObjects),
    retry_load fuel w = Some (w', r) -> same_outside_constructor w w'.
Proof.
  induction fuel as [|fuel IH]; intros w w' r Hrun; simpl in Hrun; [discriminate|].
  destruct (loadBpfObjects_answer (env w) (loads w)) as [objs|err].
  - inversion Hrun. by repeat split.
  - destruct (errors_Is err ErrMapIncompatible).
    + destruct (pinned_map_name (Error err)) as [mapName|].
      * apply IH in Hrun.
        eapply same_outside_constructor_trans; [|exact Hrun]. by repeat split.
      * inversion Hrun. by repeat split.
    + inversion Hrun. by repeat split.
Qed.

Lemma ParamMap_Update_outside (key value : Z) (w : World) :
  same_outside_constructor w (ParamMap_Update key value w).1.
Proof.
  unfold ParamMap_Update.
  by destruct (ParamMap_Update_answer (env w) key value); repeat split.
Qed.

Lemma store_params_outside (w : World) :
  same_outside_constructor w (store_params w).1.
Proof.
  unfold store_params.
  pose proof (ParamMap_Update_outside DisableL4TxChecksumKey
                DisableL4ChecksumPolicy_SetZero w) as H1.
  destruct (ParamMap_Update DisableL4TxChecksumKey _ w) as [w1 [e1|]];
    [exact H1|].
  pose proof (ParamMap_Update_outside DisableL4RxChecksumKey
                DisableL4ChecksumPolicy_SetZero w1) as H2.
  destruct (ParamMap_Update DisableL4RxChecksumKey _ w1) as [w2 [e2|]];
    [by eapply same_outside_constructor_trans|].
  pose proof (ParamMap_Update_outside EpochKey
                (uint32 (ParamMap_Lookup EpochKey 0 w2 + 1)) w2) as H3.
  destruct (ParamMap_Update EpochKey _ w2) as [w3 [e3|]]; simpl in *;
    eapply same_outside_constructor_trans; try exact H3;
    by eapply same_outside_constructor_trans.
Qed.

Lemma trace_routing_outside (rules : list RoutingRule) (final : string)
  (w : World) :
  same_outside_constructor w (trace_routing rules final w).
Proof.
  unfold trace_routing. by destruct (TraceLevel_enabled (env w)); repeat split.
Qed.

(** [assemble] changes the world by its trace line at most. *)
Lemma assemble_world (declare : Dialer -> list DialerGroup) (routingA : string)
  (objs : bpfObjects) (epoch1 : Z) (w : World) :
  (assemble declare routingA objs epoch1 w).1 = w
  \/ exists rules final,
       (assemble declare routingA objs epoch1 w).1 = trace_routing rules final w.
Proof.
  unfold assemble.
  destruct (compile_routing routingA) as [[rules final]|err]; [|by left].
  right. exists rules, final.
  destruct (NewFromLink _) as [d|err]; [|done].
  destruct (generate_outboundName2Id (declare d)) as [name2id|err]; [|done].
  by destruct (build_matcher name2id objs rules final).
Qed.

Lemma assemble_outside (declare : Dialer -> list DialerGroup) (routingA : string)
  (objs : bpfObjects) (epoch1 : Z) (w : World) :
  same_outside_constructor w (assemble declare routingA objs epoch1 w).1.
Proof.
  destruct (assemble_world declare routingA objs epoch1 w)
    as [->|(rules & final & ->)].
  - apply same_outside_constructor_refl.
  - apply trace_routing_outside.
Qed.

Lemma assemble_ParamMap (declare : Dialer -> list DialerGroup) (routingA : string)
  (objs : bpfObjects) (epoch1 : Z) (w : World) :
  ParamMap (assemble declare routingA objs epoch1 w).1 = ParamMap w.
Proof.
  destruct (assemble_world declare routingA objs epoch1 w)
    as [->|(rules & final & ->)]; [done|apply trace_routing_ParamMap].
Qed.

(** X3.  However a run of the constructor ends, with a control plane or
    with an error, it has not closed the objects it loaded, has sent
    no netlink request, has created or cancelled no context and has
    not written the per-interface address map: it has touched the
    loader, the pin directory, the log and the parameter map only. *)
Theorem NewControlPlane_touches_nothing_else
  (declare : Dialer -> list DialerGroup) (fuel : nat) (routingA : string)
  (w w' : World) (res : Result ControlPlane) :
  NewControlPlaneWith declare fuel routingA w = Some (w', res) ->
  same_outside_constructor w w'.
Proof.
  unfold NewControlPlaneWith. intros Hrun.
  destruct (RemoveMemlock_answer (env w)).
  { inversion Hrun. apply same_outside_constructor_refl. }
  destruct (retry_load fuel w) as [[w1 [objs|err]]|] eqn:Hload; [| |discriminate].
  - apply retry_load_outside in Hload.
    pose proof (store_params_outside w1) as Hparams.
    destruct (store_params w1) as [w2 [epoch1|err]]; simpl in Hparams.
    + pose proof (assemble_outside declare routingA objs epoch1 w2) as Hasm.
      destruct (assemble declare routingA objs epoch1 w2) as [w3 res3].
      inversion Hrun; subst.
      eapply same_outside_constructor_trans; [exact Hload|].
      by eapply same_outside_constructor_trans.
    + inversion Hrun; subst. by eapply same_outside_constructor_trans.
  - inversion Hrun; subst. by eapply retry_load_outside.
Qed.

(** X4.  The epoch is advanced before the routing policy is looked at:
    once the objects are loaded and the parameters stored, the
    constructor returns, and whatever it returns, a control plane or
    an error, the stored epoch is the advanced one; when the policy
    does not compile, what it returns is that error. *)
Theorem failed_construction_advances_epoch
  (declare : Dialer -> list DialerGroup) (fuel : nat) (routingA : string)
  (w w1 w2 : World) (objs : bpfObjects) (epoch1 : Z) :
  DisableL4TxChecksumKey <> EpochKey ->
  DisableL4RxChecksumKey <> EpochKey ->
  RemoveMemlock_answer (env w) = None ->
  retry_load fuel w = Some (w1, Ok objs) ->
  store_params w1 = (w2, Ok epoch1) ->
  exists w' res,
    NewControlPlaneWith declare fuel routingA w = Some (w', res)
    /\ epoch1 = uint32 (default 0 (ParamMap w !! EpochKey) + 1)
    /\ ParamMap w' !! EpochKey = Some epoch1
    /\ (forall err, compile_routing routingA = Err err -> res = Err err).
Proof.
  intros Htx Hrx Hmem Hload Hparams.
  rewrite (NewControlPlaneWith_reaches_assemble _ _ _ _ _ _ _ _
             Hmem Hload Hparams).
  pose proof (assemble_ParamMap declare routingA objs epoch1 w2) as Hmap.
  destruct (assemble declare routingA objs epoch1 w2) as [w' res] eqn:Hasm.
  exists w', res. split; [done|].
  apply retry_load_ParamMap in Hload.
  apply store_params_Ok in Hparams as [Hepoch Hstored].
  rewrite Hload in Hepoch, Hstored.
  rewrite !lookup_insert_ne in Hepoch by done.
  split; [exact Hepoch|]. split.
  - simpl in Hmap. rewrite Hmap, Hstored. apply lookup_insert_eq.
  - intros err Herr. rewrite (assemble_Err _ _ _ _ _ _ Herr) in Hasm.
    congruence.
Qed.


(* --------------------------------------------------------------------- *)
(** *** The load loop: one removal and one warning per retry *)
(* --------------------------------------------------------------------- *)

Lemma pinned_map_name_no_colon (msg name : string) :
  pinned_map_name msg = Some name -> has_colon name = false.
Proof.
  unfold pinned_map_name. destruct (strings_Index msg _) as [i|]; [|done].
  intros [= <-].
  by destruct (before_colon_split
                 (string_from (i + String.length "use pinned map ") msg))
    as (tail & _ & Hno & _).
Qed.

Lemma names_pinned_map_no_colon (r : Result bpfObjects) (name : string) :
  names_pinned_map r = Some name -> has_colon name = false.
Proof.
  unfold names_pinned_map. destruct r as [objs|err]; [done|].
  destruct (errors_Is err ErrMapIncompatible); [|done].
  apply pinned_map_name_no_colon.
Qed.

Lemma retry_load_pass (fuel : nat) (w : World) (mapName : string) :
  names_pinned_map (answer_from w 0) = Some mapName ->
  exists w3,
    retry_load (S fuel) w = retry_load fuel w3
    /\ env w3 = env w
    /\ loads w3 = S (loads w)
    /\ removed w3 = removed w ++ [filepath_Join pinPath mapName]
    /\ log w3 = log w ++ [removal_warning mapName].
Proof.
  unfold names_pinned_map, answer_from. rewrite Nat.add_0_r. intros Hname.
  simpl. destruct (loadBpfObjects_answer (env w) (loads w)) as [objs|err];
    [discriminate|].
  destruct (errors_Is err ErrMapIncompatible); [|discriminate].
  rewrite Hname. eexists. split; [reflexivity|]. by simpl.
Qed.

Lemma stale_maps_S (w w3 : World) (k : nat) (mapName : string) :
  names_pinned_map (answer_from w 0) = Some mapName ->
  env w3 = env w -> loads w3 = S (loads w) ->
  stale_maps w (S k) = mapName :: stale_maps w3 k.
Proof.
  intros Hname Henv Hloads.
  unfold stale_maps. rewrite <- cons_seq, <- fmap_S_seq. csimpl.
  rewrite Hname. f_equal.
  rewrite omap_fmap_compose. apply list_omap_ext, Forall2_same_length_lookup.
  split; [done|]. intros i j j' Hj Hj'. simplify_eq.
  by rewrite (answer_from_shift w w3 j Henv Hloads).
Qed.

(** X6.  Whenever the load loop is left, after [k] retries say: the
    loader was called [k + 1] times; the [k] maps named by the first
    [k] answers were removed from the pin directory, in that order,
    and one warning was logged for each; none of the names has a
    colon; and what the loop hands on is settled by the last answer
    alone. *)
Theorem retry_load_accounting (fuel : nat) :
  forall (w w' : World) (r : Result bpfObjects),
    retry_load fuel w = Some (w', r) ->
    exists k,
      (k < fuel)%nat
      /\ r = settle (answer_from w k)
      /\ loads w' = (loads w + k + 1)%nat
      /\ length (stale_maps w k) = k
      /\ removed w' = removed w ++ map (filepath_Join pinPath) (stale_maps w k)
      /\ log w' = log w ++ map removal_warning (stale_maps w k)
      /\ Forall (fun name => has_colon name = false) (stale_maps w k).
Proof.
  induction fuel as [|fuel IH]; intros w w' r Hrun; [discriminate|].
  destruct (names_pinned_map (answer_from w 0)) as [mapName|] eqn:Hname.
  - destruct (retry_load_pass fuel w mapName Hname)
      as (w3 & Hstep & Henv & Hloads & Hremoved & Hlog).
    rewrite Hstep in Hrun.
    destruct (IH w3 w' r Hrun) as (k & Hk & Hr & Hl & Hlen & Hrm & Hlg & Hcolon).
    exists (S k).
    rewrite (stale_maps_S w w3 k mapName Hname Henv Hloads).
    split; [lia|]. split.
    { by rewrite <- (answer_from_shift w w3 k Henv Hloads). }
    split; [lia|]. split; [simpl; lia|]. split.
    { rewrite Hrm, Hremoved, <- app_assoc. reflexivity. }
    split.
    { rewrite Hlg, Hlog, <- app_assoc. reflexivity. }
    apply Forall_cons. split; [|exact Hcolon].
    by eapply names_pinned_map_no_colon.
  - rewrite (retry_load_leave _ _ Hname) in Hrun. inversion Hrun; subst.
    exists 0%nat. unfold stale_maps. simpl.
    rewrite !app_nil_r. repeat split; try done; lia.
Qed.

(* --------------------------------------------------------------------- *)
(** *** Close: what [errors.Is] sees in the combined error *)
(* --------------------------------------------------------------------- *)

Lemma add_failures_Is (rest : list error) (target : Sentinel) :
  forall acc r,
    fold_left add_failure rest (Some acc) = Some r ->
    errors_Is r target = errors_Is acc target.
Proof.
  induction rest as [|e rest IH]; intros acc r Hr; simpl in Hr.
  - by inversion Hr.
  - by rewrite (IH _ _ Hr).
Qed.

(** X7.  The error [Close] returns wraps the first failure and only
    quotes the later ones: [errors.Is] finds a sentinel in it exactly
    when the error of the first action that failed carries it,
    whatever the later failures carry. *)
Theorem Close_error_Is_first_failure (c : ControlPlane) (w : World)
  (target : Sentinel) :
  match (Close c w).2, head (run_in_order (rev (deferFuncs c)) w).2 with
  | Some err, Some first => errors_Is err target = errors_Is first target
  | None, None => True
  | _, _ => False
  end.
Proof.
  unfold Close. rewrite invoke_deferFuncs_run by lia.
  rewrite firstn_all. simpl.
  destruct (run_in_order (rev (deferFuncs c)) w).2 as [|first rest]; simpl.
  - done.
  - destruct (combine_errors_text rest first) as (r & Hr & _).
    rewrite Hr. by eapply add_failures_Is.
Qed.

(* --------------------------------------------------------------------- *)
(** *** The outbound table as a map *)
(* --------------------------------------------------------------------- *)

Lemma fill_lookup_last (outbounds : list DialerGroup) :
  forall (i : nat) (m : gmap string Z) (name : string),
    fill_outboundName2Id i outbounds m !! name =
      match last_index_from i name outbounds with
      | Some j => Some (uint8 (Z.of_nat j))
      | None => m !! name
      end.
Proof.
  induction outbounds as [|o rest IH]; intros i m name; simpl; [done|].
  rewrite IH. destruct (last_index_from (S i) name rest) as [j|]; [done|].
  destruct (String.eqb_spec (Name o) name) as [->|Hne].
  - apply lookup_insert_eq.
  - by rewrite lookup_insert_ne.
Qed.

Lemma last_index_from_bounds (outbounds : list DialerGroup) :
  forall (i j : nat) (name : string),
    last_index_from i name outbounds = Some j ->
    (i <= j < i + length outbounds)%nat
    /\ Name <$> outbounds !! (j - i)%nat = Some name
    /\ forall j' o, (j - i < j')%nat -> outbounds !! j' = Some o -> Name o <> name.
Proof.
  induction outbounds as [|o rest IH]; intros i j name Hlast; simpl in Hlast;
    [discriminate|].
  destruct (last_index_from (S i) name rest) as [j0|] eqn:Hrest.
  - inversion Hlast; subst j0.
    destruct (IH _ _ _ Hrest) as (Hb & Hn & Hafter).
    split; [simpl; lia|].
    replace (j - i)%nat with (S (j - S i)) by lia. split; [exact Hn|].
    intros [|j'] o' Hj' Ho'; [lia|]. simpl in Ho'.
    apply (Hafter j' o'); [lia|done].
  - destruct (String.eqb_spec (Name o) name) as [Heq|Hne]; [|discriminate].
    inversion Hlast; subst j. rewrite Nat.sub_diag. simpl.
    split; [lia|]. split; [by rewrite Heq|].
    intros [|j'] o' Hj' Ho'; [lia|]. simpl in Ho'.
    clear -Hrest Ho'. revert i j' Hrest Ho'.
    induction rest as [|o2 rest IH2]; intros i j' Hrest Ho'; [done|].
    simpl in Hrest.
    destruct (last_index_from (S (S i)) name rest) eqn:Hr2; [discriminate|].
    destruct (String.eqb_spec (Name o2) name) as [|Hne2]; [discriminate|].
    destruct j' as [|j']; simpl in Ho'.
    + by inversion Ho'; subst.
    + by eapply (IH2 (S i)).
Qed.

(** X8.  The id table read as a map, for at most 255 outbounds: a name
    that no outbound bears has no id; a name that one or more
    outbounds bear has the index of the last of them, the later
    assignment overwriting the earlier. *)
Theorem outbound_table_lookup (declared : list DialerGroup) (name : string) :
  (length declared <= 255)%nat ->
  exists name2id,
    generate_outboundName2Id declared = Ok name2id
    /\ name2id !! name = Z.of_nat <$> last_index_from 0 name declared
    /\ match last_index_from 0 name declared with
       | Some j =>
           Name <$> declared !! j = Some name
           /\ forall j' o, (j < j')%nat -> declared !! j' = Some o -> Name o <> name
       | None => forall o, o ∈ declared -> Name o <> name
       end.
Proof.
  intros Hlen. eexists. split; [by apply generate_outboundName2Id_few|].
  rewrite fill_lookup_last, lookup_empty.
  destruct (last_index_from 0 name declared) as [j|] eqn:Hlast.
  - destruct (last_index_from_bounds _ _ _ _ Hlast) as (Hb & Hn & Hafter).
    rewrite Nat.sub_0_r in Hn, Hafter. simpl.
    rewrite uint8_small by lia. by repeat split.
  - split; [done|]. intros o Ho Hname.
    clear Hlen. revert Hlast. generalize 0%nat.
    induction Ho as [o rest|o o' rest Ho IH]; intros i; simpl.
    + destruct (last_index_from (S i) name rest); [done|].
      destruct (String.eqb_spec (Name o) name); done.
    + destruct (last_index_from (S i) name rest) eqn:Hr; [done|].
      intros _. by eapply IH.
Qed.

(* --------------------------------------------------------------------- *)
(** *** BindLink: failures and edge cases *)
(* --------------------------------------------------------------------- *)

Lemma add_qdisc_calls (qdisc : GenericQdisc) (w : World) :
  env (add_qdisc qdisc w).1 = env w
  /\ exists qcalls,
       netlink_calls (add_qdisc qdisc w).1 = netlink_calls w ++ qcalls
       /\ Forall (fun call => is_filter_call call = false) qcalls.
Proof.
  unfold add_qdisc. simpl.
  destruct (netlink_answer (env w) (netlink_calls w) (QdiscAdd qdisc)) as [err|].
  - destruct (os_IsExist err); simpl.
    + destruct (netlink_answer _ _ _); simpl; (split; [done|]);
        exists [QdiscAdd qdisc; QdiscDel qdisc; QdiscAdd qdisc];
        rewrite <- !app_assoc; simpl; split; try done; by repeat constructor.
    + split; [done|]. exists [QdiscAdd qdisc]. split; [done|].
      by repeat constructor.
  - split; [done|]. exists [QdiscAdd qdisc]. split; [done|]. by repeat constructor.
Qed.

Lemma install_hooks_failure (c c' : ControlPlane) (index : Z) (w w' : World)
  (err : error) :
  install_hooks c index w = (w', c', Some err) ->
  c' = set_deferFuncs (deferFuncs c') c
  /\ exists qcalls fcalls added,
       netlink_calls w' = netlink_calls w ++ qcalls ++ fcalls
       /\ Forall (fun call => is_filter_call call = false) qcalls
       /\ deferFuncs c' = deferFuncs c ++ added
       /\ ((fcalls = [] /\ added = [])
           \/ (fcalls = [FilterAdd (ingress_filter c index)]
               /\ added = [netlink (QdiscDel (clsact_qdisc index))])
           \/ (fcalls = [FilterAdd (ingress_filter c index);
                         FilterAdd (egress_filter c index)]
               /\ added = [netlink (QdiscDel (clsact_qdisc index));
                           netlink (FilterDel (ingress_filter c index))])).
Proof.
  unfold install_hooks.
  destruct (add_qdisc_calls (clsact_qdisc index) w)
    as (Henv & qcalls & Hcalls & Hq).
  destruct (add_qdisc (clsact_qdisc index) w) as [w1 [e1|]]; simpl in *.
  - intros [= <- <- <-]. split; [by destruct c|].
    exists qcalls, [], []. rewrite !app_nil_r. split; [done|]. split; [done|].
    split; [done|]. by left.
  - destruct (netlink_answer (env w1) (netlink_calls w1) _) as [e2|].
    + intros [= <- <- <-]. split; [by destruct c|].
      eexists qcalls, _, _. simpl. rewrite Hcalls, <- app_assoc.
      split; [reflexivity|]. split; [done|]. split; [reflexivity|].
      right. by left.
    + destruct (netlink_answer _ _ _) as [e3|]; [|discriminate].
      intros [= <- <- <-]. split; [by destruct c|].
      eexists qcalls, _, _. simpl. rewrite Hcalls, <- !app_assoc.
      split; [reflexivity|]. split; [done|]. split; [reflexivity|].
      right. by right.
Qed.

(** X9.  A [BindLink] that fails has changed nothing of the control
    plane but its teardown list, and has registered the teardown of
    exactly what it had installed before failing: nothing when no
    filter request was sent (the failure came before the filters or
    from the qdisc), the qdisc's when the ingress filter was refused,
    the qdisc's and the ingress filter's when the egress filter was
    refused. *)
Theorem BindLink_failure_registers_installed (c c' : ControlPlane)
  (ifname : string) (w w' : World) (err : error) :
  BindLink c ifname w = (w', c', Some err) ->
  c' = set_deferFuncs (deferFuncs c') c
  /\ exists qcalls fcalls added,
       netlink_calls w' = netlink_calls w ++ qcalls ++ fcalls
       /\ Forall (fun call => is_filter_call call = false) qcalls
       /\ deferFuncs c' = deferFuncs c ++ added
       /\ ((fcalls = [] /\ added = [])
           \/ exists index,
                LinkByName_answer (env w) ifname = Ok index
                /\ ((fcalls = [FilterAdd (ingress_filter c index)]
                     /\ added = [netlink (QdiscDel (clsact_qdisc index))])
                    \/ (fcalls = [FilterAdd (ingress_filter c index);
                                  FilterAdd (egress_filter c index)]
                        /\ added = [netlink (QdiscDel (clsact_qdisc index));
                                    netlink (FilterDel (ingress_filter c index))]))).
Proof.
  assert (Hnothing :
    forall w0, netlink_calls w0 = netlink_calls w ->
      c = set_deferFuncs (deferFuncs c) c
      /\ exists qcalls fcalls added,
           netlink_calls w0 = netlink_calls w ++ qcalls ++ fcalls
           /\ Forall (fun call => is_filter_call call = false) qcalls
           /\ deferFuncs c = deferFuncs c ++ added
           /\ ((fcalls = [] /\ added = [])
               \/ exists index,
                    LinkByName_answer (env w) ifname = Ok index
                    /\ ((fcalls = [FilterAdd (ingress_filter c index)]
                         /\ added = [netlink (QdiscDel (clsact_qdisc index))])
                        \/ (fcalls = [FilterAdd (ingress_filter c index);
                                      FilterAdd (egress_filter c index)]
                            /\ added = [netlink (QdiscDel (clsact_qdisc index));
                                        netlink (FilterDel (ingress_filter c index))])))).
  { intros w0 Hw0. split; [by destruct c|]. exists [], [], [].
    rewrite !app_nil_r. repeat split; try done. by left. }
  unfold BindLink.
  destruct (LinkByName_answer (env w) ifname) as [index|e0] eqn:Hlink.
  2:{ intros [= <- <- <-]. by apply Hnothing. }
  destruct (AddrList_answer (env w) index) as [ipnets|e0].
  2:{ intros [= <- <- <-]. by apply Hnothing. }
  case_bool_decide.
  { intros [= <- <- <-]. by apply Hnothing. }
  unfold IfindexIpMap_Update.
  destruct (IfindexIpMap_Update_answer (env w) (uint32 index) _) as [e0|].
  { intros [= <- <- <-]. by apply Hnothing. }
  intros Hhooks.
  apply install_hooks_failure in Hhooks
    as (Hc & qcalls & fcalls & added & Hcalls & Hq & Hadded & Hcases).
  split; [exact Hc|]. exists qcalls, fcalls, added. simpl in Hcalls.
  split; [exact Hcalls|]. split; [exact Hq|]. split; [exact Hadded|].
  destruct Hcases as [Hcase|Hcase]; [by left|].
  right. by exists index.
Qed.

Lemma BindLink_reaches_hooks (c : ControlPlane) (ifname : string) (w : World)
  (index : Z) (ipnets : list (list byte)) :
  LinkByName_answer (env w) ifname = Ok index ->
  AddrList_answer (env w) index = Ok ipnets ->
  ipnets <> [] ->
  IfindexIpMap_Update_answer (env w) (uint32 index)
    (scan_ipnets ipnets bpfIfIp_zero) = None ->
  BindLink c ifname w =
    install_hooks c index
      (set_IfindexIpMap
         (<[uint32 index := scan_ipnets ipnets bpfIfIp_zero]> (IfindexIpMap w)) w).
Proof.
  intros Hlink Haddrs Hne Hupdate. unfold BindLink. rewrite Hlink, Haddrs.
  rewrite bool_decide_eq_false_2 by (by destruct ipnets).
  unfold IfindexIpMap_Update. by rewrite Hupdate.
Qed.

Lemma add_qdisc_refused (qdisc : GenericQdisc) (w : World) (err : error) :
  netlink_answer (env w) (netlink_calls w) (QdiscAdd qdisc) = Some err ->
  os_IsExist err = false ->
  add_qdisc qdisc w =
    (set_netlink_calls (netlink_calls w ++ [QdiscAdd qdisc]) w,
     Some (Errorf_w "cannot add clsact qdisc: " err)).
Proof.
  intros Hanswer Hexist. unfold add_qdisc, netlink.
  by rewrite Hanswer, Hexist.
Qed.

Lemma add_qdisc_replaced (qdisc : GenericQdisc) (w : World) (err : error) :
  netlink_answer (env w) (netlink_calls w) (QdiscAdd qdisc) = Some err ->
  os_IsExist err = true ->
  add_qdisc qdisc w =
    (set_netlink_calls
       (netlink_calls w ++ [QdiscAdd qdisc; QdiscDel qdisc; QdiscAdd qdisc]) w,
     Errorf_w "cannot add clsact qdisc: " <$>
       netlink_answer (env w)
         (netlink_calls w ++ [QdiscAdd qdisc; QdiscDel qdisc])
         (QdiscAdd qdisc)).
Proof.
  intros Hanswer Hexist. unfold add_qdisc, netlink.
  rewrite Hanswer, Hexist. simpl. rewrite <- !app_assoc. simpl.
  by destruct (netlink_answer (env w)
                 (netlink_calls w ++ [QdiscAdd qdisc; QdiscDel qdisc])
                 (QdiscAdd qdisc)).
Qed.

Lemma install_hooks_after_qdisc (c : ControlPlane) (index : Z) (w w1 : World) :
  add_qdisc (clsact_qdisc index) w = (w1, None) ->
  exists rest,
    netlink_calls (install_hooks c index w).1.1 =
      netlink_calls w1 ++ FilterAdd (ingress_filter c index) :: rest.
Proof.
  intros Hq. unfold install_hooks. rewrite Hq. simpl.
  destruct (netlink_answer (env w1) (netlink_calls w1) _); simpl;
    [by exists []|].
  destruct (netlink_answer _ _ _); simpl;
    eexists; rewrite <- !app_assoc; simpl; reflexivity.
Qed.

Lemma install_hooks_without_qdisc (c : ControlPlane) (index : Z) (w w1 : World)
  (err : error) :
  add_qdisc (clsact_qdisc index) w = (w1, Some err) ->
  install_hooks c index w = (w1, c, Some err).
Proof. intros Hq. unfold install_hooks. by rewrite Hq. Qed.

(** X10.  When the kernel answers the first QdiscAdd with an error:
    if the error says the qdisc exists, [BindLink] deletes the qdisc
    and adds it again, the answer to the deletion not being looked at,
    and goes on to the ingress filter when the second addition
    succeeds; any other error ends [BindLink] after that single
    request with "cannot add clsact qdisc: ..." and nothing
    registered. *)
Theorem BindLink_existing_qdisc (c : ControlPlane) (ifname : string)
  (w : World) (index : Z) (ipnets : list (list byte)) (err : error) :
  let qdisc := clsact_qdisc index in
  let result := BindLink c ifname w in
  LinkByName_answer (env w) ifname = Ok index ->
  AddrList_answer (env w) index = Ok ipnets ->
  ipnets <> [] ->
  IfindexIpMap_Update_answer (env w) (uint32 index)
    (scan_ipnets ipnets bpfIfIp_zero) = None ->
  netlink_answer (env w) (netlink_calls w) (QdiscAdd qdisc) = Some err ->
  (os_IsExist err = false ->
     result.2 = Some (Errorf_w "cannot add clsact qdisc: " err)
     /\ result.1.2 = c
     /\ netlink_calls result.1.1 = netlink_calls w ++ [QdiscAdd qdisc])
  /\ (os_IsExist err = true ->
      match netlink_answer (env w)
              (netlink_calls w ++ [QdiscAdd qdisc; QdiscDel qdisc])
              (QdiscAdd qdisc) with
      | Some err2 =>
          result.2 = Some (Errorf_w "cannot add clsact qdisc: " err2)
          /\ result.1.2 = c
          /\ netlink_calls result.1.1 =
               netlink_calls w ++ [QdiscAdd qdisc; QdiscDel qdisc; QdiscAdd qdisc]
      | None =>
          exists rest,
            netlink_calls result.1.1 =
              netlink_calls w ++
                [QdiscAdd qdisc; QdiscDel qdisc; QdiscAdd qdisc;
                 FilterAdd (ingress_filter c index)] ++ rest
      end).
Proof.
  intros qdisc result Hlink Haddrs Hne Hupdate Hanswer.
  unfold result. rewrite (BindLink_reaches_hooks _ _ _ _ _ Hlink Haddrs Hne Hupdate).
  set (w0 := set_IfindexIpMap _ w).
  change (netlink_answer (env w0) (netlink_calls w0) (QdiscAdd qdisc) = Some err)
    in Hanswer.
  split; intros Hexist.
  - rewrite (install_hooks_without_qdisc _ _ _ _ _
               (add_qdisc_refused _ _ _ Hanswer Hexist)).
    by repeat split.
  - pose proof (add_qdisc_replaced _ _ _ Hanswer Hexist) as Hq.
    change (netlink_answer (env w0)
              (netlink_calls w0 ++ [QdiscAdd qdisc; QdiscDel qdisc])
              (QdiscAdd qdisc))
      with (netlink_answer (env w)
              (netlink_calls w ++ [QdiscAdd qdisc; QdiscDel qdisc])
              (QdiscAdd qdisc)) in Hq.
    destruct (netlink_answer (env w)
                (netlink_calls w ++ [QdiscAdd qdisc; QdiscDel qdisc])
                (QdiscAdd qdisc)) as [err2|]; simpl in Hq.
    + rewrite (install_hooks_without_qdisc _ _ _ _ _ Hq). by repeat split.
    + destruct (install_hooks_after_qdisc c _ _ _ Hq) as [rest Hrest].
      exists rest. rewrite Hrest. simpl. by rewrite <- !app_assoc.
Qed.

Lemma scan_ipnets_full (ipnets : list (list byte)) (acc : bpfIfIp) :
  HasIp4 acc = true -> HasIp6 acc = true -> scan_ipnets ipnets acc = acc.
Proof.
  destruct acc as [ip4 ip6 has4 has6]. simpl. intros -> ->.
  by rewrite scan_ipnets_spec.
Qed.

(** X11.  An interface without any address is refused before anything
    is written or requested, but an interface whose addresses are all
    unusable (of a wrong length, or link-local) is not: [BindLink]
    writes a record with neither flag set and goes on to the qdisc. *)
Theorem BindLink_no_usable_address (c : ControlPlane) (ifname : string)
  (w : World) (index : Z) (ipnets : list (list byte)) :
  LinkByName_answer (env w) ifname = Ok index ->
  AddrList_answer (env w) index = Ok ipnets ->
  (ipnets = [] ->
     BindLink c ifname w =
       (w, c, Some (errorString ("interface " +:+ ifname +:+ " has no ip"))))
  /\ (ipnets <> [] ->
      first_eligible Is4 ipnets = None ->
      first_eligible Is6 ipnets = None ->
      IfindexIpMap_Update_answer (env w) (uint32 index) bpfIfIp_zero = None ->
      IfindexIpMap (BindLink c ifname w).1.1 !! uint32 index = Some bpfIfIp_zero
      /\ exists rest,
           netlink_calls (BindLink c ifname w).1.1 =
             netlink_calls w ++ QdiscAdd (clsact_qdisc index) :: rest).
Proof.
  intros Hlink Haddrs. split.
  - intros ->. unfold BindLink. by rewrite Hlink, Haddrs.
  - intros Hne H4 H6 Hupdate.
    assert (Hzero : scan_ipnets ipnets bpfIfIp_zero = bpfIfIp_zero).
    { rewrite scan_ipnets_spec, H4, H6. reflexivity. }
    unfold BindLink. rewrite Hlink, Haddrs.
    rewrite bool_decide_eq_false_2 by (by destruct ipnets).
    unfold IfindexIpMap_Update. rewrite Hzero, Hupdate. split.
    + rewrite install_hooks_IfindexIpMap. apply lookup_insert_eq.
    + unfold install_hooks, add_qdisc. simpl.
      destruct (netlink_answer (env w) (netlink_calls w) _) as [err|]; simpl.
      * destruct (os_IsExist err); simpl.
        -- destruct (netlink_answer _ _ _); simpl;
             [eexists; rewrite <- !app_assoc; simpl; reflexivity|].
           destruct (netlink_answer _ _ _); simpl;
             [eexists; rewrite <- !app_assoc; simpl; reflexivity|].
           destruct (netlink_answer _ _ _); simpl;
             eexists; rewrite <- !app_assoc; simpl; reflexivity.
        -- by eexists.
      * destruct (netlink_answer _ _ _); simpl;
          [eexists; rewrite <- !app_assoc; simpl; reflexivity|].
        destruct (netlink_answer _ _ _); simpl;
          eexists; rewrite <- !app_assoc; simpl; reflexivity.
Qed.

(** X12.  Scanning an address list in two parts, the second from the
    record the first has left, gives the record of the whole list: the
    early exit of the loop, once both slots are full, changes nothing,
    and addresses after that point are not looked at. *)
Theorem scan_ipnets_app (first_part second_part : list (list byte)) :
  forall acc : bpfIfIp,
    scan_ipnets (first_part ++ second_part) acc =
      scan_ipnets second_part (scan_ipnets first_part acc)
    /\ (HasIp4 (scan_ipnets first_part acc) = true ->
        HasIp6 (scan_ipnets first_part acc) = true ->
        scan_ipnets (first_part ++ second_part) acc = scan_ipnets first_part acc).
Proof.
  assert (Happ : forall acc,
    scan_ipnets (first_part ++ second_part) acc =
      scan_ipnets second_part (scan_ipnets first_part acc)).
  { induction first_part as [|ipnet rest IH]; intros acc; simpl; [done|].
    destruct (AddrFromSlice ipnet) as [ip|]; [|apply IH].
    destruct (IsLinkLocalUnicast ip || IsLinkLocalMulticast ip); [apply IH|].
    destruct (Is6 ip && HasIp6 acc || Is4 ip && HasIp4 acc); [apply IH|].
    destruct (Is4 ip); simpl.
    - destruct (HasIp6 acc) eqn:H6; simpl; [|apply IH].
      by rewrite scan_ipnets_full.
    - destruct (HasIp4 acc) eqn:H4; simpl; [|apply IH].
      by rewrite scan_ipnets_full. }
  intros acc. split; [apply Happ|].
  intros H4 H6. rewrite Happ. by apply scan_ipnets_full.
Qed.

(* --------------------------------------------------------------------- *)
(** *** ListenAndServe: accepted connections, shutdown, start *)
(* --------------------------------------------------------------------- *)

(** X13.  As long as [Accept] succeeds the stream loop keeps running,
    starts one [handleConn] per connection, in the order accepted, and
    touches neither the log nor the context. *)
Theorem accept_loop_all_accepted (ctx : nat) (conns : list Conn) :
  forall (w : World) (tasks : list Task),
    accept_loop ctx (map Ok conns) w tasks =
      (w, tasks ++ map handleConn conns, Running).
Proof.
  induction conns as [|lconn conns IH]; intros w tasks; simpl.
  - by rewrite app_nil_r.
  - rewrite IH. by rewrite <- app_assoc.
Qed.



(** What [ListenAndServe] has done by the time its loops start, and
    what it has not done when it fails before: a failure registers
    no teardown action, creates no context and leaves the world as it
    was; a success has stored the port, byte-swapped, under its key,
    created one context, not yet cancelled, and registered its
    [cancel] as the one new teardown action. *)
Lemma ListenAndServe_start_outcomes (c : ControlPlane) (port : Z) (w : World) :
  match ListenAndServe_start c port w with
  | (w', c', inl err) => w' = w /\ c' = c
  | (w', c', inr s) =>
      ParamMap w' =
        <[BigEndianTproxyPortKey := uint32 (swap16 port)]> (ParamMap w)
      /\ ctx_done w' = ctx_done w ++ [false]
      /\ sv_ctx s = length (ctx_done w)
      /\ Done (sv_ctx s) w' = false
      /\ deferFuncs c' = deferFuncs c ++ [fun w => (cancel (sv_ctx s) w, None)]
      /\ sv_world s = w' /\ sv_tasks s = [] /\ sv_returned s = None
      /\ sv_tcp s = Running /\ sv_udp s = Running
  end.
Proof.
  unfold ListenAndServe_start.
  destruct (Listen_answer (env w) port); [done|].
  destruct (ListenUDP_answer (env w) port); [done|].
  unfold ParamMap_Update.
  destruct (ParamMap_Update_answer (env w) _ _); [done|].
  simpl. repeat split.
  unfold Done. simpl. by rewrite lookup_app_r, Nat.sub_diag by lia.
Qed.

(* --------------------------------------------------------------------- *)
(** *** The whole life of a control plane *)
(* --------------------------------------------------------------------- *)

Lemma netlink_keeps_contexts (call : NetlinkCall) :
  keeps_contexts (netlink call).
Proof. intros w. by split. Qed.

Lemma bpf_Close_keeps_contexts : keeps_contexts bpf_Close.
Proof. intros w. by split. Qed.

(** X15.  A control plane built by [NewControlPlane], bound to one
    link and serving: its [Close] cancels the context of
    [ListenAndServe], asks netlink to delete the ingress filter, the
    ingress filter again and the qdisc, in that order, and closes the
    eBPF objects; its error combines what the three requests and then
    the closing of the objects answered, in that order. *)
Theorem teardown_of_a_served_link (fuel : nat) (routingA ifname : string)
  (port : Z) (w0 w1 w2 w3 : World) (c1 c2 c3 : ControlPlane) (s : Serving) :
  NewControlPlane fuel routingA w0 = Some (w1, Ok c1) ->
  BindLink c1 ifname w1 = (w2, c2, None) ->
  ListenAndServe_start c2 port w2 = (w3, c3, inr s) ->
  exists index,
    LinkByName_answer (env w1) ifname = Ok index
    /\ let qdisc := clsact_qdisc index in
       let filter := ingress_filter c1 index in
       let closed := (Close c3 w3).1 in
       Done (sv_ctx s) closed = true
       /\ netlink_calls closed =
            netlink_calls w3 ++ [FilterDel filter; FilterDel filter; QdiscDel qdisc]
       /\ bpf_closed closed = true
       /\ (Close c3 w3).2 =
            combine_errors
              (omap id
                 [ netlink_answer (env w3) (netlink_calls w3) (FilterDel filter);
                   netlink_answer (env w3)
                     (netlink_calls w3 ++ [FilterDel filter]) (FilterDel filter);
                   netlink_answer (env w3)
                     (netlink_calls w3 ++ [FilterDel filter; FilterDel filter])
                     (QdiscDel qdisc);
                   bpf_Close_answer (env w3) ]).
Proof.
  intros Hnew Hbind Hstart.
  apply NewControlPlaneWith_Ok in Hnew as (? & ? & ? & ? & _ & _ & _ & Hasm).
  apply assemble_Ok in Hasm as (? & ? & ? & ? & ? & _ & _ & _ & _ & _ & Hc1).
  assert (Hd1 : deferFuncs c1 = [bpf_Close]) by (by rewrite Hc1).
  apply BindLink_deferFuncs in Hbind as (index & Hlink & Hd2 & _).
  rewrite Hd1 in Hd2. simpl in Hd2.
  pose proof (ListenAndServe_start_outcomes c2 port w2) as Hout.
  rewrite Hstart in Hout.
  destruct Hout as (_ & Hctx & Hs & _ & Hd3 & _).
  exists index. split; [exact Hlink|]. intros qdisc filter closed.
  fold qdisc filter in Hd2.
  apply ListenAndServe_start_serving in Hstart as (w2' & _ & -> & -> & ->).
  split.
  { apply Close_cancels.
    - rewrite Hd2. repeat constructor; intros ctx' Hdone'; exact Hdone'.
    - simpl. rewrite length_app. simpl. lia. }
  unfold closed, Close. simpl deferFuncs. rewrite Hd2. simpl.
  rewrite <- !app_assoc. simpl.
  destruct (netlink_answer (env w2') (netlink_calls w2') (FilterDel filter));
    destruct (netlink_answer (env w2')
                (netlink_calls w2' ++ [FilterDel filter]) (FilterDel filter));
    destruct (netlink_answer (env w2')
                (netlink_calls w2' ++ [FilterDel filter; FilterDel filter])
                (QdiscDel qdisc));
    destruct (bpf_Close_answer (env w2')); by repeat split.
Qed.

End Further.

(* ===================================================================== *)
(** ** The further properties on concrete machines *)
(* ===================================================================== *)

Section FurtherScenarios.
#[local] Existing Instance sample.

(** The sample machine with another kernel behind netlink, and with
    other addresses on its links. *)
Definition with_netlink (answer : list NetlinkCall -> NetlinkCall -> option error)
  (e : Environment) : Environment :=
  {| RemoveMemlock_answer := RemoveMemlock_answer e;
     loadBpfObjects_answer := loadBpfObjects_answer e;
     TraceLevel_enabled := TraceLevel_enabled e;
     ParamMap_Update_answer := ParamMap_Update_answer e;
     IfindexIpMap_Update_answer := IfindexIpMap_Update_answer e;
     bpf_Close_answer := bpf_Close_answer e;
     LinkByName_answer := LinkByName_answer e;
     AddrList_answer := AddrList_answer e;
     netlink_answer := answer;
     Listen_answer := Listen_answer e;
     ListenUDP_answer := ListenUDP_answer e |}.

Definition with_addresses (ipnets : list (list byte)) (e : Environment)
  : Environment :=
  {| RemoveMemlock_answer := RemoveMemlock_answer e;
     loadBpfObjects_answer := loadBpfObjects_answer e;
     TraceLevel_enabled := TraceLevel_enabled e;
     ParamMap_Update_answer := ParamMap_Update_answer e;
     IfindexIpMap_Update_answer := IfindexIpMap_Update_answer e;
     bpf_Close_answer := bpf_Close_answer e;
     LinkByName_answer := LinkByName_answer e;
     AddrList_answer := fun _ => Ok ipnets;
     netlink_answer := netlink_answer e;
     Listen_answer := Listen_answer e;
     ListenUDP_answer := ListenUDP_answer e |}.

(** A kernel that refuses the ingress filter. *)
Definition refuses_ingress (history : list NetlinkCall) (call : NetlinkCall)
  : option error :=
  match call with
  | FilterAdd f =>
      if Z.eqb (f_Parent f) HANDLE_MIN_INGRESS
      then Some (errorString "operation not permitted")
      else None
  | _ => None
  end.

(** A kernel in which the clsact qdisc is there already: the first
    request of all, the QdiscAdd, is answered "file exists". *)
Definition qdisc_exists (history : list NetlinkCall) (call : NetlinkCall)
  : option error :=
  match history, call with
  | [], QdiscAdd _ => Some (sentinelError EEXIST "file exists")
  | _, _ => None
  end.

Definition refusing_world : World :=
  world_of (with_netlink refuses_ingress sample_env) ∅.

Definition existing_qdisc_world : World :=
  world_of (with_netlink qdisc_exists sample_env) ∅.

(** fe80::1 and a slice that is no address. *)
Definition unusable_ipnets : list (list byte) :=
  [ [xfe; x80; x00; x00; x00; x00; x00; x00;
     x00; x00; x00; x00; x00; x00; x00; x01];
    [x0a; x00] ].

Definition unusable_world : World :=
  world_of (with_addresses unusable_ipnets sample_env) ∅.

(** Three outbounds, two of them named alike. *)
Definition twice_named : list DialerGroup :=
  [ NewDialerGroup sample "direct" []
      {| Policy := DialerSelectionPolicy_Fixed; FixedIndex := 0 |};
    NewDialerGroup sample "proxy" []
      {| Policy := DialerSelectionPolicy_Fixed; FixedIndex := 0 |};
    NewDialerGroup sample "direct" []
      {| Policy := DialerSelectionPolicy_Fixed; FixedIndex := 0 |} ].

#[local] Abbreviation bound :=
  (BindLink sample_started.2 "eth0" sample_started.1).

#[local] Abbreviation serving :=
  (ListenAndServe_start bound.1.2 12345 bound.1.1).

Lemma bound_without_error (x : World * ControlPlane * option error) :
  match x.2 with None => true | Some _ => false end = true ->
  x = (x.1.1, x.1.2, None).
Proof. by destruct x as [[w c] [e|]]. Qed.

Lemma bound_with_error (x : World * ControlPlane * option error) (e : error) :
  x.2 = Some e -> x = (x.1.1, x.1.2, Some e).
Proof. destruct x as [[w c] e']. simpl. by intros ->. Qed.

(** X3 on the sample machine with a policy whose external data is
    missing: the constructor fails after one load, the objects it
    loaded are not closed and no netlink request was sent. *)
Lemma NewControlPlane_touches_nothing_else_witness :
  exists w' e,
    NewControlPlane 1 "missing.dat" sample_world = Some (w', Err e)
    /\ loads w' = 1%nat
    /\ bpf_closed w' = false
    /\ netlink_calls w' = [].
Proof.
  pose proof (NewControlPlaneWith_reaches_assemble (H := sample)
                declared_outbounds 1 "missing.dat" sample_world (set_loads 1 sample_world)
                (store_params (set_loads 1 sample_world)).1 (7, 8) 42
                eq_refl eq_refl eq_refl) as Hrun.
  rewrite (assemble_Err (H := sample) declared_outbounds "missing.dat"
             (7, 8) 42 _
             (Errorf_w ("ApplyRulesOptimizers error: " +:+ String "010" " ")
                (errorString "missing.dat: not found")) eq_refl) in Hrun.
  destruct (NewControlPlane_touches_nothing_else _ _ _ _ _ _ Hrun)
    as (_ & Hclosed & _ & Hcalls & _).
  eexists _, _. split; [exact Hrun|]. split; [reflexivity|].
  split; [exact Hclosed|exact Hcalls].
Defined.

(** X4 on the same run: the constructor fails on the policy, and the
    stored epoch has gone from 41 to 42 all the same. *)
Lemma failed_construction_advances_epoch_witness :
  exists w' res,
    NewControlPlane 1 "missing.dat" sample_world = Some (w', res)
    /\ ParamMap sample_world !! EpochKey = Some 41
    /\ ParamMap w' !! EpochKey = Some 42
    /\ res = Err (Errorf_w ("ApplyRulesOptimizers error: " +:+ String "010" " ")
                    (errorString "missing.dat: not found")).
Proof.
  destruct (failed_construction_advances_epoch (H := sample)
              declared_outbounds 1 "missing.dat" sample_world (set_loads 1 sample_world)
              (store_params (set_loads 1 sample_world)).1 (7, 8) 42)
    as (w' & res & Hrun & _ & Hstored & Hres); try done.
  exists w', res. split; [exact Hrun|]. split; [reflexivity|].
  split; [exact Hstored|]. by apply Hres.
Defined.


(** X6 on the machine whose loader answers "incompatible" three times:
    three retries, three removals, three warnings. *)
Lemma retry_load_accounting_witness :
  exists k,
    (k < 4)%nat
    /\ loads thrice_loaded = (k + 1)%nat
    /\ length (stale_maps thrice_world k) = k
    /\ log thrice_loaded = map removal_warning (stale_maps thrice_world k).
Proof.
  destruct (retry_load 4 thrice_world) as [[w' r]|] eqn:Hrun.
  - destruct (retry_load_accounting 4 thrice_world w' r Hrun)
      as (k & Hk & _ & Hloads & Hlen & _ & Hlog & _).
    exists k. unfold thrice_loaded. rewrite Hrun.
    split; [exact Hk|]. split; [exact Hloads|]. split; [exact Hlen|exact Hlog].
  - exfalso.
    assert (Hsome : match retry_load 4 thrice_world with
                    | Some _ => true | None => false end = true)
      by (vm_compute; reflexivity).
    rewrite Hrun in Hsome. discriminate Hsome.
Defined.

(** X8 on three outbounds of which the first and the third are both
    named "direct": "direct" has the id 2, "proxy" the id 1, and
    "block" none. *)
Lemma outbound_table_lookup_witness :
  exists name2id,
    generate_outboundName2Id twice_named = Ok name2id
    /\ name2id !! "direct" = Some 2
    /\ name2id !! "proxy" = Some 1
    /\ name2id !! "block" = None.
Proof.
  destruct (outbound_table_lookup twice_named "direct") as (m & Hm & Hd & _);
    [simpl; lia|].
  destruct (outbound_table_lookup twice_named "proxy") as (m1 & Hm1 & Hp & _);
    [simpl; lia|].
  destruct (outbound_table_lookup twice_named "block") as (m2 & Hm2 & Hb & _);
    [simpl; lia|].
  assert (m1 = m) as -> by congruence.
  assert (m2 = m) as -> by congruence.
  by exists m.
Defined.

#[local] Abbreviation refused :=
  (BindLink sample_started.2 "eth0" refusing_world).

(** X9 on the machine whose kernel refuses the ingress filter:
    [BindLink] fails, and of the control plane only the teardown list
    has changed, by the one action that deletes the qdisc. *)
Lemma BindLink_failure_registers_installed_witness :
  refused.2 =
    Some (Errorf_w "cannot attach ebpf object to filter ingress: "
            (errorString "operation not permitted"))
  /\ refused.1.2 = set_deferFuncs (deferFuncs refused.1.2) sample_started.2
  /\ length (deferFuncs refused.1.2) = 2%nat
  /\ exists added,
       deferFuncs refused.1.2 = deferFuncs sample_started.2 ++ added
       /\ (length added <= 2)%nat.
Proof.
  assert (Herr : refused.2 =
                 Some (Errorf_w "cannot attach ebpf object to filter ingress: "
                         (errorString "operation not permitted")))
    by (vm_compute; reflexivity).
  destruct (BindLink_failure_registers_installed _ _ _ _ _ _
              (bound_with_error refused _ Herr))
    as (Hc & qcalls & fcalls & added & _ & _ & Hadded & Hcases).
  split; [exact Herr|]. split; [exact Hc|].
  split; [vm_compute; reflexivity|].
  exists added. split; [exact Hadded|].
  destruct Hcases as [[_ ->]|(index & _ & [[_ ->]|[_ ->]])]; simpl; lia.
Defined.

(** X10 on the machine where the qdisc is there already: [BindLink]
    adds, deletes, adds again and goes on to the ingress filter. *)
Lemma BindLink_existing_qdisc_witness :
  exists rest,
    netlink_calls (BindLink sample_started.2 "eth0" existing_qdisc_world).1.1 =
      [ QdiscAdd (clsact_qdisc 2); QdiscDel (clsact_qdisc 2);
        QdiscAdd (clsact_qdisc 2);
        FilterAdd (ingress_filter sample_started.2 2) ] ++ rest.
Proof.
  destruct (BindLink_existing_qdisc sample_started.2 "eth0" existing_qdisc_world
              2 sample_ipnets (sentinelError EEXIST "file exists"))
    as [_ Hexists]; [reflexivity|reflexivity|discriminate|reflexivity|reflexivity|].
  exact (Hexists eq_refl).
Defined.

(** X11 on the machine whose link has fe80::1 and a two-byte slice
    only: the record written has neither flag set, and the qdisc is
    asked for. *)
Lemma BindLink_no_usable_address_witness :
  IfindexIpMap (BindLink sample_started.2 "eth0" unusable_world).1.1 !! 2
    = Some bpfIfIp_zero
  /\ exists rest,
       netlink_calls (BindLink sample_started.2 "eth0" unusable_world).1.1 =
         QdiscAdd (clsact_qdisc 2) :: rest.
Proof.
  destruct (BindLink_no_usable_address sample_started.2 "eth0" unusable_world
              2 unusable_ipnets) as [_ Hunusable]; [reflexivity|reflexivity|].
  exact (Hunusable ltac:(discriminate) ltac:(vm_compute; reflexivity)
           ltac:(vm_compute; reflexivity) eq_refl).
Defined.




Lemma sample_bound_run : bound = (bound.1.1, bound.1.2, None).
Proof. apply bound_without_error. vm_compute. reflexivity. Qed.

Lemma sample_serving_run :
  serving = (serving.1.1, serving.1.2, inr (serving_of serving.2)).
Proof. apply started_serving. vm_compute. reflexivity. Qed.

(** X15 on the sample machine: after [NewControlPlane], [BindLink] on
    eth0 and the start of [ListenAndServe], [Close] leaves the context
    cancelled, the objects closed, and six netlink requests in all. *)
Lemma teardown_of_a_served_link_witness :
  Done (sv_ctx (serving_of serving.2)) (Close serving.1.2 serving.1.1).1 = true
  /\ bpf_closed (Close serving.1.2 serving.1.1).1 = true
  /\ length (netlink_calls (Close serving.1.2 serving.1.1).1) = 6%nat
  /\ (Close serving.1.2 serving.1.1).2 = None.
Proof.
  destruct (teardown_of_a_served_link 1 sample_routingA "eth0" 12345
              sample_world sample_started.1 bound.1.1 serving.1.1
              sample_started.2 bound.1.2 serving.1.2 (serving_of serving.2)
              sample_started_run sample_bound_run sample_serving_run)
    as (index & _ & Hdone & Hcalls & Hclosed & Herr).
  split; [exact Hdone|]. split; [exact Hclosed|]. split.
  - assert (Hlen : length (netlink_calls serving.1.1) = 3%nat)
      by (vm_compute; reflexivity).
    rewrite Hcalls, length_app, Hlen. reflexivity.
  - rewrite Herr. reflexivity.
Defined.

(** Two teardown actions that fail: the one invoked first with a plain
    error, the one invoked last with "file exists". *)
Definition two_failing_releases : ControlPlane :=
  set_deferFuncs
    [ release "A" (Some (sentinelError EEXIST "file exists"));
      release "B" (Some (errorString "B is gone")) ]
    blank_control_plane.

(** X7 on those two: the combined error quotes "file exists", but
    [errors.Is] does not find EEXIST in it, the first failure being
    B's. *)
Example Close_loses_later_sentinel :
  match (Close two_failing_releases sample_world).2 with
  | Some err =>
      Error err = "B is gone; file exists" /\ errors_Is err EEXIST = false
  | None => False
  end.
Proof. vm_compute. by split. Qed.

End FurtherScenarios.
